(** * Player-trajectory utilities (utils.py): extraction and field rendering

    A shallow embedding of [utils.py] of the NFL Big Data Bowl tracking
    utilities, with the pandas and matplotlib operations it calls, and the
    properties of its five functions.

    - Python exceptions are an error monad ([result]); plotting calls are
      recorded in a trace that survives a raise ([plt]).
    - Coordinates are IEEE binary64 numbers, as Python floats are
      ([PrimFloat.float]); a missing numeric cell is NaN.
    - A data frame is its schema (the list of columns) and its rows. *)

From Stdlib Require Import ZArith List String Bool Lia Floats Uint63.
From Stdlib Require Import DecimalString DecimalZ DecimalPos Permutation Sorted.
Import ListNotations.

#[local] Abbreviation length := List.length (only parsing).

Set Warnings "-inexact-float,-register-all".
Open Scope string_scope.
Open Scope list_scope.
Open Scope Z_scope.

(* ================================================================== *)
(** ** Columns *)

(** Modelled from the spec: the column-name constants of [const.py], which
    [utils.py] star-imports and which is not among the sources.  The ten
    names are the ones [utils.py] uses and section 6 of the specification
    lists; their string values are never inspected, so they stay symbolic. *)
Inductive column : Set :=
| GAME_ID | PLAY_ID | FRAME_ID | NFL_ID | PLAYER_NAME
| X | Y | PLAYER_ROLE | BALL_LAND_X | BALL_LAND_Y.

Scheme Equality for column.

(* ================================================================== *)
(** ** Python: exceptions, sequences, formatting *)

Inductive exn : Set :=
| KeyError (key : column)   (* a column label that the frame does not have *)
| IndexError                (* a subscript out of range *)
| ValueError (msg : string) (* what an explicit argument check raises *).

Inductive result (A : Type) : Type :=
| Ok (a : A)
| Raise (e : exn).
Arguments Ok {A} a.
Arguments Raise {A} e.

Class Monad (M : Type -> Type) : Type := {
  ret : forall {A}, A -> M A;
  bind : forall {A B}, M A -> (A -> M B) -> M B
}.

Declare Scope monad_scope.
Delimit Scope monad_scope with monad.
Notation "x <- c1 ;; c2" := (bind c1 (fun x => c2))
  (at level 61, c1 at next level, right associativity) : monad_scope.
Notation "c1 ;; c2" := (bind c1 (fun _ => c2))
  (at level 61, right associativity) : monad_scope.
Open Scope monad_scope.

#[global] Instance result_Monad : Monad result := {
  ret := fun A a => Ok a;
  bind := fun A B m f => match m with Ok a => f a | Raise e => Raise e end
}.

(** [for a in xs: body], the loop's variables threaded as a state [s]; a
    raise in one iteration ends the loop. *)
Fixpoint for_in {M : Type -> Type} `{Monad M} {A S : Type}
  (xs : list A) (body : A -> S -> M S) (s : S) : M S :=
  match xs with
  | [] => ret s
  | a :: rest => s' <- body a s ;; for_in rest body s'
  end.

Definition len {A : Type} (l : list A) : Z := Z.of_nat (List.length l).

(** [l[i]] on a Python list: a negative index counts from the end, an index
    out of range raises [IndexError]. *)
Definition getitem {A : Type} (l : list A) (i : Z) : result A :=
  let j := if i <? 0 then i + len l else i in
  if (0 <=? j) && (j <? len l)
  then match nth_error l (Z.to_nat j) with
       | Some a => Ok a
       | None => Raise IndexError
       end
  else Raise IndexError.

(** [range(n)] and [range(start, stop, step)] for a positive step. *)
Definition range (n : Z) : list Z := map Z.of_nat (seq 0 (Z.to_nat n)).

Definition range3 (start stop step : Z) : list Z :=
  map (fun k => start + step * Z.of_nat k)
      (seq 0 (Z.to_nat ((stop - start + step - 1) / step))).

Definition enumerate {A : Type} (l : list A) : list (Z * A) :=
  combine (range (len l)) l.

(** [str(n)] of an integer, as an f-string prints it. *)
Definition str (n : Z) : string := NilZero.string_of_int (Z.to_int n).

(** An integer used where a coordinate is expected. *)
Definition float_of_Z (n : Z) : float := PrimFloat.of_uint63 (Uint63.of_Z n).

(** Truth value of an optional integer argument: [None] and [0] are falsy. *)
Definition truthy (v : option Z) : bool :=
  match v with Some n => negb (n =? 0) | None => false end.

(* ================================================================== *)
(** ** pandas: frames, series and the operations used *)

(** A cell of an object column (player name, role): a string or missing. *)
Inductive strcell : Set :=
| Str (s : string)
| NA.

(** One tracking row.  A frame whose schema lacks a column never reads the
    corresponding field. *)
Record Row : Set := mkRow {
  gameId : Z;
  playId : Z;
  frameId : Z;
  nflId : Z;
  playerName : strcell;
  xPos : float;
  yPos : float;
  playerRole : strcell;
  ballLandX : float;
  ballLandY : float
}.

Record DataFrame : Set := mkDataFrame {
  columns : list column;
  rows : list Row
}.

(** [c in df.columns] *)
Definition has_column (df : DataFrame) (c : column) : bool :=
  existsb (column_beq c) (columns df).

(** [df[c]]: the series of column [c], read off the rows by [field];
    [KeyError] when the schema has no such column. *)
Definition col {A : Type} (df : DataFrame) (c : column) (field : Row -> A)
  : result (list A) :=
  if has_column df c then Ok (map field (rows df)) else Raise (KeyError c).

(** [series == v] and [mask1 & mask2] *)
Definition series_eq (s : list Z) (v : Z) : list bool :=
  map (fun a => a =? v) s.

Definition mask_and (m1 m2 : list bool) : list bool :=
  map (fun ab => fst ab && snd ab) (combine m1 m2).

(** [df[mask]]: the rows whose mask entry is true, in their order. *)
Definition loc_mask (df : DataFrame) (mask : list bool) : DataFrame :=
  {| columns := columns df;
     rows := map fst (filter snd (combine (rows df) mask)) |}.

(** [series.iloc[i]] *)
Definition iloc {A : Type} (s : list A) (i : Z) : result A := getitem s i.

(** [pd.notna(v)] on a float *)
Definition notna (v : float) : bool := negb (PrimFloat.is_nan v).

(** [series.isin(values)]: a missing cell is in no list of strings. *)
Definition isin (s : list strcell) (values : list string) : list bool :=
  map (fun c => match c with
                | Str v => existsb (String.eqb v) values
                | NA => false
                end) s.

(** The distinct keys of a series in ascending order. *)
Fixpoint insert_key (k : Z) (ks : list Z) : list Z :=
  match ks with
  | [] => [k]
  | h :: t => if k <? h then k :: ks
              else if k =? h then ks
              else h :: insert_key k t
  end.

Definition unique_sorted (ks : list Z) : list Z := fold_right insert_key [] ks.

(** [df.groupby(c)], iterated: one (key, sub-frame) per distinct key, keys
    ascending (pandas sorts group keys by default), the rows of a group in
    the order they have in [df]. *)
Definition groupby (df : DataFrame) (c : column) (key : Row -> Z)
  : result (list (Z * DataFrame)) :=
  if has_column df c
  then Ok (map (fun k => (k, {| columns := columns df;
                                rows := filter (fun r => key r =? k) (rows df) |}))
               (unique_sorted (map key (rows df))))
  else Raise (KeyError c).

(** A reference row sorter: insertion sort on an integer key.  It is one
    of the sorters the theorems range over (a sorted permutation); rows
    with equal keys come out in the reverse of their input order. *)
Fixpoint insert_row (key : Row -> Z) (r : Row) (l : list Row) : list Row :=
  match l with
  | [] => [r]
  | h :: t => if key r <? key h then r :: l else h :: insert_row key r t
  end.

Definition insertion_sort (key : Row -> Z) (l : list Row) : list Row :=
  fold_right (insert_row key) [] l.

(* ================================================================== *)
(** ** utils.py: extraction and aggregation *)

(** The body of [for nfl_id, player_group in play_df.groupby(NFL_ID)]: the
    loop's two lists are its state; each iteration appends to both. *)
Definition add_player (g : Z * DataFrame)
  (acc : list (list (float * float)) * list strcell)
  : result (list (list (float * float)) * list strcell) :=
  let nfl_id := fst g in
  let player_group := snd g in
  (* Extract points for this player *)
  xs <- col player_group X xPos ;;
  ys <- col player_group Y yPos ;;
  let points := combine xs ys in
  let points_array := fst acc ++ [points] in
  (* Create label *)
  label <-
    (if has_column player_group PLAYER_NAME
     then
       names <- col player_group PLAYER_NAME playerName ;;
       iloc names 0
     else ret (Str ("Player " ++ str nfl_id)%string)) ;;
  ret (points_array, snd acc ++ [label]).

Section Frames.

(** [sort_values] uses pandas' default algorithm (quicksort), which fixes
    the result only up to the order of rows with equal keys.  The sorter is
    therefore a parameter; the theorems assume of it what pandas promises
    (see Section [Aggregator]). *)
Variable sort_rows : (Row -> Z) -> list Row -> list Row.

(** [df.sort_values(c)] for an integer column. *)
Definition sort_values (df : DataFrame) (c : column) (key : Row -> Z)
  : result DataFrame :=
  if has_column df c
  then Ok {| columns := columns df; rows := sort_rows key (rows df) |}
  else Raise (KeyError c).

Definition extract_points (play_group : DataFrame) : result (list (float * float)) :=
  xs <- col play_group X xPos ;;
  ys <- col play_group Y yPos ;;
  let points := combine xs ys in
  ret points.

Definition get_player_points_array (df : DataFrame) (game_id play_id : Z)
  : result (list (list (float * float)) * list strcell * option (float * float)) :=
  (* Filter to specific game and play *)
  games <- col df GAME_ID gameId ;;
  plays <- col df PLAY_ID playId ;;
  let play_df := loc_mask df (mask_and (series_eq games game_id)
                                       (series_eq plays play_id)) in
  (* Sort by frame to ensure correct order *)
  play_df <- sort_values play_df FRAME_ID frameId ;;
  let points_array := [] in
  let labels := [] in
  (* Get ball landing position *)
  ball_land <-
    (if has_column play_df BALL_LAND_X && has_column play_df BALL_LAND_Y
     then
       land_xs <- col play_df BALL_LAND_X ballLandX ;;
       ball_x <- iloc land_xs 0 ;;
       land_ys <- col play_df BALL_LAND_Y ballLandY ;;
       ball_y <- iloc land_ys 0 ;;
       ret (if notna ball_x && notna ball_y
            then Some (ball_x, ball_y)
            else None)
     else ret None) ;;
  (* Group by player *)
  groups <- groupby play_df NFL_ID nflId ;;
  acc <- for_in groups add_player (points_array, labels) ;;
  ret (fst acc, snd acc, ball_land).

End Frames.

Definition is_offensive_player (player_role : list strcell) : list bool :=
  isin player_role ["Other Route Runner"; "Passer"; "Targeted Receiver"].

(* ================================================================== *)
(** ** matplotlib: recorded calls and the tab10 colormap *)

Definition rgb : Set := (Z * Z * Z)%type.

(** An argument of a plotting call.  Every numeric literal is recorded as
    a float, whether the source writes [5] or [53.3]. *)
Inductive arg : Set :=
| Num (v : float)
| Nums (vs : list float)
| Pair (a b : float)
| Text (s : string)
| Cell (c : strcell)
| Flag (b : bool)
| Color (c : rgb)
| Obj (ctor : string) (args : list arg) (kwargs : list (string * arg)).

(** One call of the plotting library: what is called, its positional
    arguments, its keyword arguments. *)
Inductive call : Set :=
| Call (fn : string) (args : list arg) (kwargs : list (string * arg)).

(** A rendering computation: the calls issued so far and how it ended.  The
    calls issued before a raise stay issued. *)
Definition plt (A : Type) : Type := (list call * result A)%type.

#[global] Instance plt_Monad : Monad plt := {
  ret := fun A a => ([], Ok a);
  bind := fun A B m f =>
    match m with
    | (t, Ok a) => let (t', r) := f a in (t ++ t', r)
    | (t, Raise e) => (t, Raise e)
    end
}.

Definition emit (c : call) : plt unit := ([c], Ok tt).

Definition lift {A : Type} (r : result A) : plt A := ([], r).

(** The ten rows of matplotlib's [tab10] lookup table, each by its 8-bit
    red, green and blue components (alpha is 1 throughout). *)
Definition tab10_lut : list rgb :=
  [ (31, 119, 180); (255, 127, 14); (44, 160, 44); (214, 39, 40);
    (148, 103, 189); (140, 86, 75); (227, 119, 194); (127, 127, 127);
    (188, 189, 34); (23, 190, 207) ].

(** [plt.cm.tab10(indices)] on integers, after matplotlib's
    [Colormap.__call__]: an integer indexes the lookup table directly; one
    past the end takes the "over" colour and a negative one the "under"
    colour, which default to the last and the first row.  The result has
    one row per index. *)
Definition tab10 (indices : list Z) : list rgb :=
  let N := len tab10_lut in
  map (fun i =>
         let j := if N - 1 <? i then N - 1 else if i <? 0 then 0 else i in
         nth (Z.to_nat j) tab10_lut (0, 0, 0))
      indices.

(* ================================================================== *)
(** ** utils.py: rendering *)

(** The body of [for i, points in enumerate(points_array)]. *)
Definition plot_trajectory (colors : list rgb) (labels : option (list strcell))
  (ip : Z * list (float * float)) (_ : unit) : plt unit :=
  let i := fst ip in
  let points := snd ip in
  (* Extract x and y coordinates *)
  let x_coords := map fst points in
  let y_coords := map snd points in
  (* Determine label *)
  label <- lift
    (match labels with
     | Some ls =>
         if negb (len ls =? 0) && (i <? len ls)
         then getitem ls i
         else ret (Str ("Player " ++ str (i + 1))%string)
     | None => ret (Str ("Player " ++ str (i + 1))%string)
     end) ;;
  (* Plot the trajectory *)
  color <- lift (getitem colors i) ;;
  emit (Call "ax.plot" [Nums x_coords; Nums y_coords; Text "-o"]
          [("markersize", Num 5); ("linewidth", Num 2);
           ("color", Color color); ("label", Cell label);
           ("alpha", Num 0.9); ("zorder", Num 2)]) ;;
  (* Add arrow at the end *)
  if 2 <=? len points
  then
    x_last <- lift (getitem x_coords (-1)) ;;
    x_prev <- lift (getitem x_coords (-2)) ;;
    let dx := PrimFloat.sub x_last x_prev in
    y_last <- lift (getitem y_coords (-1)) ;;
    y_prev <- lift (getitem y_coords (-2)) ;;
    let dy := PrimFloat.sub y_last y_prev in
    x_from <- lift (getitem x_coords (-2)) ;;
    y_from <- lift (getitem y_coords (-2)) ;;
    fc <- lift (getitem colors i) ;;
    ec <- lift (getitem colors i) ;;
    emit (Call "ax.arrow" [Num x_from; Num y_from; Num dx; Num dy]
            [("head_width", Num 2); ("head_length", Num 1.5);
             ("fc", Color fc); ("ec", Color ec);
             ("linewidth", Num 2); ("zorder", Num 3)])
  else ret tt.

Definition plot_multiple_points
  (points_array : list (list (float * float)))
  (ball_land : option (float * float))
  (game_id play_id : option Z)
  (labels : option (list strcell)) : plt unit :=
  (* Create the plot *)
  emit (Call "plt.subplots" [] [("figsize", Pair 12 5)]) ;;
  (* Draw football field background *)
  let field := Obj "patches.Rectangle" [Pair 0 0; Num 120; Num 53.3]
                 [("linewidth", Num 2); ("edgecolor", Text "white");
                  ("facecolor", Text "#2d5016"); ("zorder", Num 0)] in
  emit (Call "ax.add_patch" [field] []) ;;
  let left_endzone := Obj "patches.Rectangle" [Pair (-10) 0; Num 10; Num 53.3]
                        [("linewidth", Num 0); ("facecolor", Text "#1a3d0a");
                         ("zorder", Num 0)] in
  let right_endzone := Obj "patches.Rectangle" [Pair 120 0; Num 10; Num 53.3]
                         [("linewidth", Num 0); ("facecolor", Text "#1a3d0a");
                          ("zorder", Num 0)] in
  emit (Call "ax.add_patch" [left_endzone] []) ;;
  emit (Call "ax.add_patch" [right_endzone] []) ;;
  (* Draw yard lines *)
  for_in (range3 0 121 10)
    (fun yard (_ : unit) =>
       emit (Call "ax.plot"
               [Nums [float_of_Z yard; float_of_Z yard]; Nums [0; 53.3]%float;
                Text "w-"]
               [("linewidth", Num 1); ("alpha", Num 0.5); ("zorder", Num 1)]))
    tt ;;
  (* Draw sidelines *)
  emit (Call "ax.plot" [Nums [0; 120]%float; Nums [0; 0]%float; Text "w-"]
          [("linewidth", Num 2); ("zorder", Num 1)]) ;;
  emit (Call "ax.plot" [Nums [0; 120]%float; Nums [53.3; 53.3]%float; Text "w-"]
          [("linewidth", Num 2); ("zorder", Num 1)]) ;;
  (* Set limits to show full field with buffer *)
  emit (Call "ax.set_xlim" [Num (-10); Num 130] []) ;;
  emit (Call "ax.set_ylim" [Num (-5); Num 58.3] []) ;;
  (* Plot each trajectory *)
  let colors := tab10 (range (len points_array)) in
  for_in (enumerate points_array) (plot_trajectory colors labels) tt ;;
  (* Plot ball landing position *)
  match ball_land with
  | Some landing =>
      emit (Call "ax.plot" [Num (fst landing); Num (snd landing)]
              [("marker", Text "*"); ("markersize", Num 20);
               ("color", Text "yellow"); ("markeredgecolor", Text "black");
               ("markeredgewidth", Num 2); ("label", Text "Ball Landing");
               ("zorder", Num 4)])
  | None => ret tt
  end ;;
  (* Labels and grid *)
  emit (Call "ax.set_xlabel" [Text "X (yards)"]
          [("color", Text "white"); ("fontsize", Num 12)]) ;;
  emit (Call "ax.set_ylabel" [Text "Y (yards)"]
          [("color", Text "white"); ("fontsize", Num 12)]) ;;
  let title :=
    match game_id, play_id with
    | Some g, Some p =>
        if truthy game_id && truthy play_id
        then ("Game: " ++ str g ++ ", Play: " ++ str p)%string
        else "Player Trajectories"
    | _, _ => "Player Trajectories"
    end in
  emit (Call "ax.set_title" [Text title]
          [("color", Text "white"); ("fontsize", Num 14);
           ("fontweight", Text "bold")]) ;;
  (* Style adjustments for football field look *)
  emit (Call "ax.set_facecolor" [Text "#2d5016"] []) ;;
  emit (Call "fig.patch.set_facecolor" [Text "#1a1a1a"] []) ;;
  emit (Call "ax.tick_params" [] [("colors", Text "white")]) ;;
  emit (Call "ax.legend" []
          [("facecolor", Text "#1a1a1a"); ("edgecolor", Text "white");
           ("labelcolor", Text "white")]) ;;
  emit (Call "ax.set_aspect" [Text "auto"] []) ;;
  emit (Call "plt.tight_layout" [] []) ;;
  emit (Call "plt.show" [] []).

Definition plot_single_trajectory
  (points : list (float * float)) (game_id play_id : option Z) : plt unit :=
  (* Extract x and y coordinates *)
  let x_coords := map fst points in
  let y_coords := map snd points in
  (* Create the plot *)
  emit (Call "plt.figure" [] [("figsize", Pair 12 5)]) ;;
  (* Set limits to show full field with buffer *)
  emit (Call "plt.xlim" [Num (-5); Num 125] []) ;;
  emit (Call "plt.ylim" [Num (-5); Num 58] []) ;;
  (* Plot the points *)
  emit (Call "plt.plot" [Nums x_coords; Nums y_coords; Text "b-o"]
          [("markersize", Num 4); ("linewidth", Num 1)]) ;;
  (* Mark start and end *)
  x_first <- lift (getitem x_coords 0) ;;
  y_first <- lift (getitem y_coords 0) ;;
  emit (Call "plt.plot" [Num x_first; Num y_first; Text "go"]
          [("markersize", Num 10); ("label", Text "Start")]) ;;
  x_last <- lift (getitem x_coords (-1)) ;;
  y_last <- lift (getitem y_coords (-1)) ;;
  emit (Call "plt.plot" [Num x_last; Num y_last; Text "ro"]
          [("markersize", Num 10); ("label", Text "End")]) ;;
  (* Labels and grid *)
  emit (Call "plt.xlabel" [Text "X (yards)"] []) ;;
  emit (Call "plt.ylabel" [Text "Y (yards)"] []) ;;
  let title :=
    match game_id, play_id with
    | Some g, Some p =>
        if truthy game_id && truthy play_id
        then ("Game: " ++ str g ++ ", Play: " ++ str p)%string
        else "Player Trajectory"
    | _, _ => "Player Trajectory"
    end in
  emit (Call "plt.title" [Text title] []) ;;
  emit (Call "plt.grid" [Flag true] [("alpha", Num 0.3)]) ;;
  emit (Call "plt.legend" [] []) ;;
  emit (Call "plt.gca().set_aspect" [Text "auto"] []) ;;
  emit (Call "plt.show" [] []).

(* ================================================================== *)
(** ** Vocabulary of the statements *)

(** The rows a play selection matches, in table order. *)
Definition selection (df : DataFrame) (game_id play_id : Z) : list Row :=
  filter (fun r => (gameId r =? game_id) && (playId r =? play_id)) (rows df).

(** A tracking table has the six required columns of the input contract. *)
Definition tracking_table (df : DataFrame) : Prop :=
  Forall (fun c => has_column df c = true)
         [GAME_ID; PLAY_ID; FRAME_ID; NFL_ID; X; Y].

(** Both landing-coordinate columns are in the schema. *)
Definition landing_columns (df : DataFrame) : bool :=
  has_column df BALL_LAND_X && has_column df BALL_LAND_Y.

(** The rows of one player among [l], in the order of [l]. *)
Definition player_rows (p : Z) (l : list Row) : list Row :=
  filter (fun r => nflId r =? p) l.

(** The (x, y) pairs of a list of rows, row by row. *)
Definition trajectory (l : list Row) : list (float * float) :=
  map (fun r => (xPos r, yPos r)) l.

(** The label the aggregator gives player [p] whose rows, in frame order,
    are [group]. *)
Definition label_of (df : DataFrame) (p : Z) (group : list Row) : strcell :=
  if has_column df PLAYER_NAME
  then hd NA (map playerName group)
  else Str ("Player " ++ str p)%string.

(** The landing point read off row [r]. *)
Definition landing_of (r : Row) : option (float * float) :=
  if notna (ballLandX r) && notna (ballLandY r)
  then Some (ballLandX r, ballLandY r)
  else None.

(* ================================================================== *)
(** ** Rendering: reading a trace *)

(** The values [f] picks out of a trace, in the order of the calls. *)
Definition pick {A B : Type} (f : A -> option B) (l : list A) : list B :=
  flat_map (fun a => match f a with Some b => [b] | None => [] end) l.

(** A trajectory line, [ax.plot(xs, ys, '-o', ..., color=c, label=l, ...)]:
    its coordinates, colour and label. *)
Definition trajectory_line (c : call)
  : option (list float * list float * rgb * strcell) :=
  match c with
  | Call fn [Nums xs; Nums ys; Text fmt]
         [_; _; (_, Color color); (_, Cell label); _; _] =>
      if (fn =? "ax.plot")%string && (fmt =? "-o")%string
      then Some (xs, ys, color, label)
      else None
  | _ => None
  end.

Definition line_coords (c : call) : option (list float * list float) :=
  option_map (fun l => (fst (fst (fst l)), snd (fst (fst l)))) (trajectory_line c).

Definition line_color (c : call) : option rgb :=
  option_map (fun l => snd (fst l)) (trajectory_line c).

(** An arrow, [ax.arrow(x, y, dx, dy, ...)]: its anchor and displacement. *)
Definition arrow_geometry (c : call)
  : option ((float * float) * (float * float)) :=
  match c with
  | Call fn [Num x; Num y; Num dx; Num dy] _ =>
      if (fn =? "ax.arrow")%string then Some ((x, y), (dx, dy)) else None
  | _ => None
  end.

(** Following the specification (4.4, directional cue): the arrow of a
    trajectory, anchored at the second-to-last point, its displacement the
    last point minus the second-to-last; none for fewer than two points. *)
Definition final_segment (points : list (float * float))
  : list ((float * float) * (float * float)) :=
  match rev points with
  | last :: prev :: _ =>
      [ (prev, (PrimFloat.sub (fst last) (fst prev),
                PrimFloat.sub (snd last) (snd prev))) ]
  | _ => []
  end.

(** Following the specification (design notes): the wrap-around
    assignment [color(i) = palette[i mod len(palette)]]. *)
Definition wraparound_color (i : Z) : option rgb :=
  nth_error tab10_lut (Z.to_nat (i mod len tab10_lut)).

(** The assignment the colormap call makes: past the end of the palette,
    its last colour. *)
Definition clamped_color (i : Z) : option rgb :=
  nth_error tab10_lut (Z.to_nat (Z.min i (len tab10_lut - 1))).

(** An explicit, fail-fast rejection of an argument: the call raises before
    it issues any plotting call, and what it raises is not the index fault
    of an unchecked subscript. *)
Definition rejects_explicitly {A : Type} (out : plt A) : Prop :=
  fst out = [] /\ exists e, snd out = Raise e /\ e <> IndexError.

(** The frame of one player's rows among [l], as [groupby] hands it to
    the player loop. *)
Definition player_group (df : DataFrame) (p : Z) (l : list Row) : DataFrame :=
  {| columns := columns df; rows := player_rows p l |}.

(** The rows a play selection matches, as a table of their own. *)
Definition play_frame (df : DataFrame) (game_id play_id : Z) : DataFrame :=
  {| columns := columns df; rows := selection df game_id play_id |}.

(** The use the docstring of [is_offensive_player] gives:
    [off_df = df[is_offensive_player(df[PLAYER_ROLE])]]. *)
Definition offensive_frame (df : DataFrame) : result DataFrame :=
  roles <- col df PLAYER_ROLE playerRole ;;
  ret (loc_mask df (is_offensive_player roles)).

(** The mask entry [is_offensive_player] gives one role. *)
Definition offensive (role : strcell) : bool :=
  nth 0 (is_offensive_player [role]) false.

(** The label [plot_multiple_points] gives the trajectory at index [i]. *)
Definition label_at (labels : option (list strcell)) (i : Z) : strcell :=
  match labels with
  | Some ls =>
      match nth_error ls (Z.to_nat i) with
      | Some label => label
      | None => Str ("Player " ++ str (i + 1))%string
      end
  | None => Str ("Player " ++ str (i + 1))%string
  end.

(** The title both renderers compute, over their generic title. *)
Definition title_of (generic : string) (game_id play_id : option Z) : string :=
  match game_id, play_id with
  | Some g, Some p =>
      if negb (g =? 0) && negb (p =? 0)
      then ("Game: " ++ str g ++ ", Play: " ++ str p)%string
      else generic
  | _, _ => generic
  end.

Definition line_label (c : call) : option strcell :=
  option_map snd (trajectory_line c).

(** The fill and edge colours of an arrow. *)
Definition arrow_colors (c : call) : option (rgb * rgb) :=
  match c with
  | Call fn [Num _; Num _; Num _; Num _] kwargs =>
      if (fn =? "ax.arrow")%string
      then match kwargs with
           | [_; _; (_, Color fc); (_, Color ec); _; _] => Some (fc, ec)
           | _ => None
           end
      else None
  | _ => None
  end.

(** The landing marker, [ax.plot(x, y, marker='*', ...)]. *)
Definition landing_marker (c : call) : option (float * float) :=
  match c with
  | Call fn [Num x; Num y] ((_, Text marker) :: _) =>
      if (fn =? "ax.plot")%string && (marker =? "*")%string
      then Some (x, y)
      else None
  | _ => None
  end.

(** The title set on the axes or on the current figure. *)
Definition title_text (c : call) : option string :=
  match c with
  | Call fn (Text title :: _) _ =>
      if (fn =? "ax.set_title")%string || (fn =? "plt.title")%string
      then Some title
      else None
  | _ => None
  end.

(** A labelled point marker of the single renderer,
    [plt.plot(x, y, fmt, markersize=10, label=...)]. *)
Definition point_marker (c : call) : option (string * string * (float * float)) :=
  match c with
  | Call fn [Num x; Num y; Text fmt] [_; (_, Text label)] =>
      if (fn =? "plt.plot")%string then Some (fmt, label, (x, y)) else None
  | _ => None
  end.

(* ================================================================== *)
(** ** Example tables *)

Definition tracking_row (game play frame player : Z) (name : strcell)
  (x y landing_x landing_y : float) : Row :=
  mkRow game play frame player name x y NA landing_x landing_y.

(** The end-to-end example of the specification (game 100, play 7, two
    players, landing point (60, 10)), its rows out of frame order and mixed
    with a row of another play.  No name column. *)
Definition example_df : DataFrame :=
  {| columns := [GAME_ID; PLAY_ID; FRAME_ID; NFL_ID; X; Y;
                 BALL_LAND_X; BALL_LAND_Y];
     rows := [ tracking_row 100 7 2 2 NA 48 26 60 10;
               tracking_row 100 7 3 1 NA 14 22 60 10;
               tracking_row 100 8 1 1 NA 70 30 35 40;
               tracking_row 100 7 1 1 NA 10 20 60 10;
               tracking_row 100 7 2 1 NA 12 21 60 10;
               tracking_row 100 7 1 2 NA 50 25 60 10 ] |}.

(** A table with a name column, where player 2's first row in frame order
    has no name and the first row of the play has no landing x. *)
Definition named_df : DataFrame :=
  {| columns := [GAME_ID; PLAY_ID; FRAME_ID; NFL_ID; PLAYER_NAME; X; Y;
                 BALL_LAND_X; BALL_LAND_Y];
     rows := [ tracking_row 100 7 1 2 NA 50 25 nan 10;
               tracking_row 100 7 2 2 (Str "Receiver") 48 26 60 10;
               tracking_row 100 7 2 1 (Str "Passer") 12 21 60 10 ] |}.

(** The example table without its landing columns. *)
Definition bare_df : DataFrame :=
  {| columns := [GAME_ID; PLAY_ID; FRAME_ID; NFL_ID; X; Y];
     rows := rows example_df |}.

(** The example table with its rows in reverse order. *)
Definition reversed_df : DataFrame :=
  {| columns := columns example_df; rows := rev (rows example_df) |}.

(** The example table without its play column, and without its x column. *)
Definition no_play_df : DataFrame :=
  {| columns := [GAME_ID; FRAME_ID; NFL_ID; X; Y]; rows := rows example_df |}.

Definition no_x_df : DataFrame :=
  {| columns := [GAME_ID; PLAY_ID; FRAME_ID; NFL_ID; Y]; rows := rows example_df |}.

(** A table with a role column. *)
Definition role_df : DataFrame :=
  {| columns := [GAME_ID; PLAY_ID; FRAME_ID; NFL_ID; X; Y; PLAYER_ROLE];
     rows := [ mkRow 100 7 1 1 NA 10 20 (Str "Passer") 0 0;
               mkRow 100 7 1 2 NA 50 25 (Str "Pass Block") 0 0;
               mkRow 100 7 1 3 NA 30 12 NA 0 0;
               mkRow 100 7 1 4 NA 33 40 (Str "Targeted Receiver") 0 0 ] |}.

(* ================================================================== *)
(** ** Lists, sequences and series *)

Lemma combine_map {A B C : Type} (f : A -> B) (g : A -> C) (l : list A) :
  combine (map f l) (map g l) = map (fun a => (f a, g a)) l.
Proof.
  induction l as [|a l IH]; simpl; [reflexivity | now rewrite IH].
Qed.

Lemma len_nonneg {A : Type} (l : list A) : 0 <= len l.
Proof. unfold len. lia. Qed.

Lemma len_cons {A : Type} (a : A) (l : list A) : len (a :: l) = len l + 1.
Proof. unfold len. cbn [List.length]. lia. Qed.

Lemma getitem_0 {A : Type} (l : list A) :
  getitem l 0 = match l with [] => Raise IndexError | a :: _ => Ok a end.
Proof.
  destruct l as [|a l]; [reflexivity|].
  unfold getitem. rewrite len_cons.
  change (0 <? 0) with false. cbv beta iota zeta.
  change (0 <=? 0) with true.
  pose proof (len_nonneg l) as Hl.
  destruct (Z.ltb_spec 0 (len l + 1)); [reflexivity | lia].
Qed.

Lemma getitem_ok {A : Type} (l : list A) (i : Z) :
  0 <= i < len l ->
  exists a, nth_error l (Z.to_nat i) = Some a /\ getitem l i = Ok a.
Proof.
  intros Hi. unfold getitem.
  destruct (Z.ltb_spec i 0); [lia|].
  destruct (Z.leb_spec 0 i); [|lia].
  destruct (Z.ltb_spec i (len l)); [|lia].
  destruct (nth_error l (Z.to_nat i)) as [a|] eqn:E.
  - exists a. now split.
  - apply nth_error_None in E. unfold len in Hi. lia.
Qed.

(** The last two elements of a list, by negative index. *)
Lemma getitem_last {A : Type} (l : list A) (a b : A) :
  getitem (l ++ [a; b]) (-1) = Ok b.
Proof.
  unfold getitem.
  assert (Hlen : len (l ++ [a; b]) = len l + 2)
    by (unfold len; rewrite length_app; simpl; lia).
  rewrite Hlen. pose proof (len_nonneg l) as Hl.
  change (-1 <? 0) with true. cbv beta iota zeta.
  destruct (Z.leb_spec 0 (-1 + (len l + 2))); [|lia].
  destruct (Z.ltb_spec (-1 + (len l + 2)) (len l + 2)); [|lia].
  replace (Z.to_nat (-1 + (len l + 2))) with (length l + 1)%nat
    by (unfold len; lia).
  rewrite nth_error_app2 by lia.
  replace (length l + 1 - length l)%nat with 1%nat by lia. reflexivity.
Qed.

Lemma getitem_prev {A : Type} (l : list A) (a b : A) :
  getitem (l ++ [a; b]) (-2) = Ok a.
Proof.
  unfold getitem.
  assert (Hlen : len (l ++ [a; b]) = len l + 2)
    by (unfold len; rewrite length_app; simpl; lia).
  rewrite Hlen. pose proof (len_nonneg l) as Hl.
  change (-2 <? 0) with true. cbv beta iota zeta.
  destruct (Z.leb_spec 0 (-2 + (len l + 2))); [|lia].
  destruct (Z.ltb_spec (-2 + (len l + 2)) (len l + 2)); [|lia].
  replace (Z.to_nat (-2 + (len l + 2))) with (length l + 0)%nat
    by (unfold len; lia).
  rewrite nth_error_app2 by lia.
  replace (length l + 0 - length l)%nat with 0%nat by lia. reflexivity.
Qed.

Lemma getitem_end {A : Type} (l : list A) (a : A) :
  getitem (l ++ [a]) (-1) = Ok a.
Proof.
  unfold getitem.
  assert (Hlen : len (l ++ [a]) = len l + 1)
    by (unfold len; rewrite length_app; simpl; lia).
  rewrite Hlen. pose proof (len_nonneg l) as Hl.
  change (-1 <? 0) with true. cbv beta iota zeta.
  destruct (Z.leb_spec 0 (-1 + (len l + 1))); [|lia].
  destruct (Z.ltb_spec (-1 + (len l + 1)) (len l + 1)); [|lia].
  replace (Z.to_nat (-1 + (len l + 1))) with (length l + 0)%nat
    by (unfold len; lia).
  rewrite nth_error_app2 by lia.
  replace (length l + 0 - length l)%nat with 0%nat by lia. reflexivity.
Qed.

(** A list of at least two elements ends in two elements. *)
Lemma two_last {A : Type} (l : list A) :
  (2 <= length l)%nat -> exists pre a b, l = pre ++ [a; b].
Proof.
  intros Hl.
  destruct (rev l) as [|b [|a r]] eqn:E.
  - apply (f_equal (@List.length A)) in E. rewrite length_rev in E.
    simpl in E. lia.
  - apply (f_equal (@List.length A)) in E. rewrite length_rev in E.
    simpl in E. lia.
  - exists (rev r), a, b.
    rewrite <- (rev_involutive l), E. simpl. now rewrite <- app_assoc.
Qed.

Lemma mask_selection (l : list Row) (game_id play_id : Z) :
  map fst (filter snd
    (combine l (mask_and (series_eq (map gameId l) game_id)
                         (series_eq (map playId l) play_id))))
  = filter (fun r => (gameId r =? game_id) && (playId r =? play_id)) l.
Proof.
  unfold mask_and, series_eq.
  induction l as [|r l IH]; [reflexivity|].
  simpl. destruct ((gameId r =? game_id) && (playId r =? play_id)); simpl;
    now rewrite IH.
Qed.

(** *** Group keys *)

Lemma insert_key_In (k a : Z) (ks : list Z) :
  In a (insert_key k ks) <-> a = k \/ In a ks.
Proof.
  induction ks as [|h t IH]; simpl.
  - intuition.
  - destruct (Z.ltb_spec k h); [simpl; intuition|].
    destruct (Z.eqb_spec k h); simpl; [subst; intuition|].
    rewrite IH. intuition.
Qed.

Lemma unique_sorted_In (a : Z) (ks : list Z) :
  In a (unique_sorted ks) <-> In a ks.
Proof.
  induction ks as [|k ks IH]; simpl; [tauto|].
  rewrite insert_key_In, IH. intuition.
Qed.

Lemma insert_key_sorted (k : Z) (ks : list Z) :
  StronglySorted Z.lt ks -> StronglySorted Z.lt (insert_key k ks).
Proof.
  induction ks as [|h t IH]; intros Hs; simpl.
  - repeat constructor.
  - inversion Hs as [|? ? Ht Hall]; subst.
    destruct (Z.ltb_spec k h).
    + constructor; [assumption|]. constructor; [assumption|].
      eapply Forall_impl; [|exact Hall]. simpl; intros; lia.
    + destruct (Z.eqb_spec k h); [assumption|].
      constructor; [auto|].
      apply Forall_forall. intros a Ha. apply insert_key_In in Ha.
      destruct Ha as [->|Ha]; [lia|].
      rewrite Forall_forall in Hall. auto.
Qed.

Lemma unique_sorted_sorted (ks : list Z) : StronglySorted Z.lt (unique_sorted ks).
Proof.
  induction ks as [|k ks IH]; simpl; [constructor | now apply insert_key_sorted].
Qed.

Lemma sorted_lt_NoDup (ks : list Z) : StronglySorted Z.lt ks -> NoDup ks.
Proof.
  induction 1 as [|a l Hs IH Hall]; constructor; [|assumption].
  intros Hin. rewrite Forall_forall in Hall. specialize (Hall _ Hin). lia.
Qed.

(** The number of group keys is the number of distinct values, however
    the distinct values are listed. *)
Lemma unique_sorted_length (ks ids : list Z) :
  NoDup ids -> (forall a, In a ids <-> In a ks) ->
  length (unique_sorted ks) = length ids.
Proof.
  intros Hnd Hin. apply Permutation_length, NoDup_Permutation.
  - apply sorted_lt_NoDup, unique_sorted_sorted.
  - assumption.
  - intros a. rewrite unique_sorted_In. symmetry. apply Hin.
Qed.

(** *** The reference sorter *)

Lemma insert_row_perm (key : Row -> Z) (r : Row) (l : list Row) :
  Permutation (insert_row key r l) (r :: l).
Proof.
  induction l as [|h t IH]; simpl; [reflexivity|].
  destruct (key r <? key h); [reflexivity|].
  rewrite IH. apply perm_swap.
Qed.

Lemma insertion_sort_perm (key : Row -> Z) (l : list Row) :
  Permutation (insertion_sort key l) l.
Proof.
  induction l as [|r l IH]; simpl; [constructor|].
  rewrite insert_row_perm. now constructor.
Qed.

Lemma insert_row_sorted (key : Row -> Z) (r : Row) (l : list Row) :
  StronglySorted (fun a b => key a <= key b) l ->
  StronglySorted (fun a b => key a <= key b) (insert_row key r l).
Proof.
  induction l as [|h t IH]; intros Hs; simpl.
  - repeat constructor.
  - inversion Hs as [|? ? Ht Hall]; subst.
    destruct (Z.ltb_spec (key r) (key h)).
    + constructor; [assumption|]. constructor; [lia|].
      eapply Forall_impl; [|exact Hall]. simpl; intros; lia.
    + constructor; [auto|].
      eapply Permutation_Forall; [symmetry; apply insert_row_perm|].
      constructor; [lia | assumption].
Qed.

Lemma insertion_sort_sorted (key : Row -> Z) (l : list Row) :
  StronglySorted (fun a b => key a <= key b) (insertion_sort key l).
Proof.
  induction l as [|r l IH]; simpl; [constructor | now apply insert_row_sorted].
Qed.

(* ================================================================== *)
(** ** The aggregator, step by step *)

Lemma player_rows_nonempty (p : Z) (l : list Row) :
  In p (map nflId l) -> exists first rest, player_rows p l = first :: rest.
Proof.
  intros Hin. apply in_map_iff in Hin. destruct Hin as (r & Hr & Hin).
  assert (Hp : In r (player_rows p l)).
  { apply filter_In. split; [assumption|]. apply Z.eqb_eq. assumption. }
  destruct (player_rows p l) as [|first rest]; [destruct Hp|eauto].
Qed.

(** One iteration of the player loop, on the group of a player that has
    at least one row. *)
Lemma add_player_run (df : DataFrame) (l : list Row) (p : Z)
  (acc : list (list (float * float)) * list strcell) :
  has_column df X = true -> has_column df Y = true ->
  In p (map nflId l) ->
  add_player (p, {| columns := columns df; rows := player_rows p l |}) acc
  = Ok (fst acc ++ [trajectory (player_rows p l)],
        snd acc ++ [label_of df p (player_rows p l)]).
Proof.
  intros HX HY Hin.
  destruct (player_rows_nonempty p l Hin) as (first & rest & Hrows).
  unfold add_player, col, label_of, has_column in *. cbn [fst snd columns rows].
  rewrite HX, HY. cbn [bind ret result_Monad].
  rewrite combine_map. fold (trajectory (player_rows p l)).
  destruct (existsb (column_beq PLAYER_NAME) (columns df)).
  - cbn [bind ret result_Monad]. unfold iloc. rewrite getitem_0, Hrows.
    reflexivity.
  - reflexivity.
Qed.

(** The whole player loop: one trajectory and one label per group key. *)
Lemma for_in_add_player (df : DataFrame) (l : list Row) (players : list Z) :
  has_column df X = true -> has_column df Y = true ->
  (forall p, In p players -> In p (map nflId l)) ->
  forall acc,
  for_in (map (fun k => (k, {| columns := columns df;
                               rows := filter (fun r => nflId r =? k) l |}))
              players)
         add_player acc
  = Ok (fst acc ++ map (fun p => trajectory (player_rows p l)) players,
        snd acc ++ map (fun p => label_of df p (player_rows p l)) players).
Proof.
  intros HX HY. induction players as [|p ps IH]; intros Hin acc.
  - simpl. rewrite !app_nil_r. now destruct acc.
  - cbn [map for_in]. fold (player_rows p l).
    rewrite add_player_run by (auto; apply Hin; now left).
    cbn [bind result_Monad]. rewrite IH by (intros; apply Hin; now right).
    cbn [fst snd]. now rewrite <- !app_assoc.
Qed.

(** Runs the error monad as far as the known columns allow. *)
Ltac run_result :=
  repeat first
    [ progress cbn [bind ret result_Monad columns rows fst snd]
    | match goal with H : existsb _ _ = true |- _ => rewrite H end ].

Section AggregatorRun.

Variable sort_rows : (Row -> Z) -> list Row -> list Row.

(** What [get_player_points_array] computes on a tracking table, in terms
    of the frame-sorted selection. *)
Lemma get_player_points_array_run (df : DataFrame) (game_id play_id : Z) :
  tracking_table df ->
  let sorted := sort_rows frameId (selection df game_id play_id) in
  let players := unique_sorted (map nflId sorted) in
  let out landing :=
    Ok (map (fun p => trajectory (player_rows p sorted)) players,
        map (fun p => label_of df p (player_rows p sorted)) players,
        landing) in
  get_player_points_array sort_rows df game_id play_id =
  if landing_columns df
  then match sorted with
       | [] => Raise IndexError
       | first :: _ => out (landing_of first)
       end
  else out None.
Proof.
  intros Htab sorted players out.
  unfold tracking_table in Htab.
  repeat match goal with
         | H : Forall _ (_ :: _) |- _ => inversion H; clear H; subst
         end.
  unfold get_player_points_array, col, sort_values, groupby, landing_columns.
  unfold has_column in *. cbn [columns rows loc_mask].
  run_result.
  rewrite mask_selection. fold (selection df game_id play_id). fold sorted.
  fold players.
  assert (Hloop : forall acc,
    for_in (map (fun k => (k, {| columns := columns df;
                                 rows := filter (fun r => nflId r =? k) sorted |}))
                players) add_player acc
    = Ok (fst acc ++ map (fun p => trajectory (player_rows p sorted)) players,
          snd acc ++ map (fun p => label_of df p (player_rows p sorted)) players)).
  { apply for_in_add_player; unfold has_column; auto.
    intros p Hp. exact (proj1 (unique_sorted_In _ _) Hp). }
  unfold iloc, out. clearbody players. clearbody sorted.
  destruct (existsb (column_beq BALL_LAND_X) (columns df));
    destruct (existsb (column_beq BALL_LAND_Y) (columns df));
    cbn [andb]; run_result; rewrite ?Hloop; try reflexivity.
  rewrite getitem_0.
  destruct sorted as [|first rest]; [reflexivity|].
  cbn [map]. run_result. rewrite getitem_0. run_result.
  rewrite ?Hloop. reflexivity.
Qed.

End AggregatorRun.

(** *** Filtering a sorted permutation *)

Lemma filter_perm {A : Type} (f : A -> bool) (l l' : list A) :
  Permutation l l' -> Permutation (filter f l) (filter f l').
Proof.
  induction 1 as [|a l l' _ IH|a b l|l l' l'' _ IH1 _ IH2]; simpl.
  - constructor.
  - destruct (f a); [now constructor | assumption].
  - destruct (f a), (f b); try reflexivity. apply perm_swap.
  - now transitivity (filter f l').
Qed.

Lemma filter_sorted {A : Type} (R : A -> A -> Prop) (f : A -> bool) (l : list A) :
  StronglySorted R l -> StronglySorted R (filter f l).
Proof.
  induction 1 as [|a l Hs IH Hall]; simpl; [constructor|].
  destruct (f a); [|assumption].
  constructor; [assumption|].
  rewrite Forall_forall in *. intros b Hb. apply filter_In in Hb. now apply Hall.
Qed.

(** Rows in non-decreasing key order whose keys are pairwise distinct are
    in increasing key order. *)
Lemma sorted_strict (key : Row -> Z) (l : list Row) :
  StronglySorted (fun a b => key a <= key b) l ->
  NoDup (map key l) ->
  StronglySorted (fun a b => key a < key b) l.
Proof.
  induction 1 as [|a l Hs IH Hall]; intros Hnd; [constructor|].
  simpl in Hnd. inversion Hnd as [|? ? Hnotin Hnd']; subst.
  constructor; [auto|].
  rewrite Forall_forall in *. intros b Hb.
  specialize (Hall b Hb). simpl in Hall.
  assert (key a <> key b) by (intros E; apply Hnotin; rewrite E; now apply in_map).
  lia.
Qed.

(** The head of a sorted list has the least key. *)
Lemma sorted_head_least (key : Row -> Z) (first : Row) (rest : list Row) :
  StronglySorted (fun a b => key a <= key b) (first :: rest) ->
  forall r, In r (first :: rest) -> key first <= key r.
Proof.
  intros Hs r [<-|Hin]; [lia|].
  inversion Hs as [|? ? _ Hall]; subst.
  rewrite Forall_forall in Hall. now apply Hall.
Qed.

(* ================================================================== *)
(** ** The aggregator on the example tables *)

Example example_df_aggregate :
  get_player_points_array insertion_sort example_df 100 7
  = Ok ([ [(10, 20); (12, 21); (14, 22)]; [(50, 25); (48, 26)] ]%float,
        [Str "Player 1"; Str "Player 2"],
        Some (60, 10)%float).
Proof. vm_compute. reflexivity. Qed.

Example named_df_aggregate :
  get_player_points_array insertion_sort named_df 100 7
  = Ok ([ [(12, 21)]; [(50, 25); (48, 26)] ]%float,
        [Str "Passer"; NA],
        None).
Proof. vm_compute. reflexivity. Qed.

Example example_df_no_such_play :
  get_player_points_array insertion_sort example_df 100 9 = Raise IndexError.
Proof. vm_compute. reflexivity. Qed.

Example bare_df_no_such_play :
  get_player_points_array insertion_sort bare_df 100 9 = Ok ([], [], None).
Proof. vm_compute. reflexivity. Qed.

Example missing_column_raises :
  get_player_points_array insertion_sort
    {| columns := [GAME_ID; FRAME_ID; NFL_ID; X; Y]; rows := rows example_df |}
    100 7
  = Raise (KeyError PLAY_ID).
Proof. vm_compute. reflexivity. Qed.

(* ================================================================== *)
(** ** Coordinate Extractor *)

(** C4.  On a collection of [n] player rows (a frame with the x and y
    columns) [extract_points] returns exactly [n] pairs, the i-th pair
    made of the x and y cells of the i-th row as they are (a NaN cell
    stays a NaN coordinate), with nothing filtered and the row order
    kept; on no rows it returns the empty sequence. *)
Theorem extract_points_row_by_row (play_group : DataFrame) :
  has_column play_group X = true ->
  has_column play_group Y = true ->
  exists points,
    extract_points play_group = Ok points /\
    length points = length (rows play_group) /\
    (forall i r, nth_error (rows play_group) i = Some r ->
                 nth_error points i = Some (xPos r, yPos r)) /\
    (forall i, nth_error (rows play_group) i = None ->
               nth_error points i = None) /\
    (rows play_group = [] -> points = []).
Proof.
  intros HX HY. exists (trajectory (rows play_group)).
  unfold extract_points, col, trajectory. rewrite HX, HY.
  cbn [bind ret result_Monad]. rewrite combine_map.
  split; [reflexivity|]. split; [apply length_map|].
  split; [|split].
  - intros i r Hr. rewrite nth_error_map, Hr. reflexivity.
  - intros i Hr. rewrite nth_error_map, Hr. reflexivity.
  - intros ->. reflexivity.
Qed.

Lemma extract_points_row_by_row_witness :
  (has_column example_df X = true /\ has_column example_df Y = true) /\
  exists points,
    extract_points example_df = Ok points /\
    length points = length (rows example_df) /\
    (forall i r, nth_error (rows example_df) i = Some r ->
                 nth_error points i = Some (xPos r, yPos r)) /\
    (forall i, nth_error (rows example_df) i = None ->
               nth_error points i = None) /\
    (rows example_df = [] -> points = []).
Proof.
  split; [split; reflexivity|].
  apply (extract_points_row_by_row example_df); reflexivity.
Defined.

(* ================================================================== *)
(** ** Play Aggregator *)

Section Aggregator.

Variable sort_rows : (Row -> Z) -> list Row -> list Row.

(** What pandas promises of [sort_values]: the same rows, in
    non-decreasing key order.  Nothing is assumed about rows with equal
    keys. *)
Hypothesis sort_rows_perm :
  forall key l, Permutation (sort_rows key l) l.
Hypothesis sort_rows_sorted :
  forall key l, StronglySorted (fun a b => key a <= key b) (sort_rows key l).

Lemma sort_rows_nil (key : Row -> Z) : sort_rows key [] = [].
Proof. apply Permutation_nil. symmetry. apply sort_rows_perm. Qed.

Lemma sort_rows_cons (key : Row -> Z) (l : list Row) :
  l <> [] ->
  exists first rest,
    sort_rows key l = first :: rest /\ In first l /\
    forall r, In r l -> key first <= key r.
Proof.
  intros Hl. destruct (sort_rows key l) as [|first rest] eqn:E.
  - exfalso. apply Hl. apply Permutation_nil. rewrite <- E.
    apply sort_rows_perm.
  - exists first, rest. split; [reflexivity|].
    pose proof (sort_rows_perm key l) as Hp. rewrite E in Hp.
    split.
    + apply (Permutation_in _ Hp). now left.
    + intros r Hr. apply (sorted_head_least key first rest).
      * rewrite <- E. apply sort_rows_sorted.
      * apply (Permutation_in _ (Permutation_sym Hp)). assumption.
Qed.

Lemma sort_rows_players (l : list Row) (p : Z) :
  In p (map nflId (sort_rows frameId l)) <-> In p (map nflId l).
Proof.
  split; apply Permutation_in, Permutation_map;
    [|symmetry]; apply sort_rows_perm.
Qed.

Lemma selection_empty_run (df : DataFrame) (game_id play_id : Z) :
  tracking_table df ->
  selection df game_id play_id = [] ->
  get_player_points_array sort_rows df game_id play_id =
  if landing_columns df then Raise IndexError else Ok ([], [], None).
Proof.
  intros Htab Hsel.
  rewrite (get_player_points_array_run sort_rows df game_id play_id Htab).
  cbv zeta. rewrite Hsel, sort_rows_nil. reflexivity.
Qed.

(** C1.  On a tracking table where the play selection matches no row,
    [get_player_points_array] returns the three empty or absent outputs
    when a landing-coordinate column is missing from the schema; when both
    are in the schema it returns nothing and raises [IndexError], from
    [.iloc[0]] on the empty landing series. *)
Theorem empty_selection_outcome (df : DataFrame) (game_id play_id : Z) :
  tracking_table df ->
  selection df game_id play_id = [] ->
  (landing_columns df = false ->
   get_player_points_array sort_rows df game_id play_id = Ok ([], [], None)) /\
  (landing_columns df = true ->
   get_player_points_array sort_rows df game_id play_id = Raise IndexError).
Proof.
  intros Htab Hsel.
  rewrite (selection_empty_run df game_id play_id Htab Hsel).
  split; intros ->; reflexivity.
Qed.

(** C3.  On a tracking table and a play selection that matches at least
    one row, the aggregator returns, and its landing point is present
    exactly when both landing columns are in the schema and the first row
    of the selection in frame order has neither coordinate missing; it is
    then that row's pair.  What later rows hold plays no part. *)
Theorem landing_point_of_first_row (df : DataFrame) (game_id play_id : Z) :
  tracking_table df ->
  selection df game_id play_id <> [] ->
  exists first rest points_array labels ball_land,
    sort_rows frameId (selection df game_id play_id) = first :: rest /\
    In first (selection df game_id play_id) /\
    (forall r, In r (selection df game_id play_id) -> frameId first <= frameId r) /\
    get_player_points_array sort_rows df game_id play_id
      = Ok (points_array, labels, ball_land) /\
    (ball_land <> None <->
       has_column df BALL_LAND_X = true /\ has_column df BALL_LAND_Y = true /\
       PrimFloat.is_nan (ballLandX first) = false /\
       PrimFloat.is_nan (ballLandY first) = false) /\
    (ball_land <> None -> ball_land = Some (ballLandX first, ballLandY first)).
Proof.
  intros Htab Hsel.
  destruct (sort_rows_cons frameId _ Hsel) as (first & rest & E & Hin & Hmin).
  rewrite (get_player_points_array_run sort_rows df game_id play_id Htab).
  cbv zeta. rewrite E.
  exists first, rest. do 2 eexists.
  exists (if landing_columns df then landing_of first else None).
  split; [reflexivity|]. split; [assumption|]. split; [assumption|].
  split; [destruct (landing_columns df); reflexivity|].
  unfold landing_columns, landing_of, notna.
  destruct (has_column df BALL_LAND_X), (has_column df BALL_LAND_Y),
           (PrimFloat.is_nan (ballLandX first)),
           (PrimFloat.is_nan (ballLandY first));
    cbn [negb andb]; intuition congruence.
Qed.

(** When the aggregator returns, and what its two lists then are. *)
Lemma aggregator_returns (df : DataFrame) (game_id play_id : Z) :
  tracking_table df ->
  selection df game_id play_id <> [] \/ landing_columns df = false ->
  let sorted := sort_rows frameId (selection df game_id play_id) in
  let players := unique_sorted (map nflId sorted) in
  exists ball_land,
    get_player_points_array sort_rows df game_id play_id
    = Ok (map (fun p => trajectory (player_rows p sorted)) players,
          map (fun p => label_of df p (player_rows p sorted)) players,
          ball_land).
Proof.
  intros Htab Hcase sorted players.
  rewrite (get_player_points_array_run sort_rows df game_id play_id Htab).
  cbv zeta. fold sorted. fold players.
  destruct (landing_columns df).
  - destruct Hcase as [Hsel|]; [|discriminate].
    destruct (sort_rows_cons frameId _ Hsel) as (first & rest & E & _).
    fold sorted in E. clearbody players. rewrite E. eauto.
  - eauto.
Qed.

Lemma aggregator_ok_inv (df : DataFrame) (game_id play_id : Z)
  points_array labels ball_land :
  tracking_table df ->
  get_player_points_array sort_rows df game_id play_id
    = Ok (points_array, labels, ball_land) ->
  let sorted := sort_rows frameId (selection df game_id play_id) in
  let players := unique_sorted (map nflId sorted) in
  points_array = map (fun p => trajectory (player_rows p sorted)) players /\
  labels = map (fun p => label_of df p (player_rows p sorted)) players.
Proof.
  intros Htab Hrun sorted players.
  rewrite (get_player_points_array_run sort_rows df game_id play_id Htab) in Hrun.
  cbv zeta in Hrun. fold sorted in Hrun. fold players in Hrun.
  clearbody players.
  destruct (landing_columns df); [destruct sorted; [discriminate|]|];
    injection Hrun as <- <- _; now split.
Qed.

(** C5.  With [ids] the distinct player identifiers of the selected rows:
    whenever the selection is not empty or a landing column is missing,
    the aggregator returns exactly one trajectory and one label per
    identifier, at index [i] the trajectory and the label of the same
    player, the players taken in ascending identifier order.  On an empty
    selection with both landing columns it returns nothing: it raises
    [IndexError] before the player loop. *)
Theorem one_trajectory_and_label_per_player
  (df : DataFrame) (game_id play_id : Z) (ids : list Z) :
  tracking_table df ->
  NoDup ids ->
  (forall p, In p ids <-> In p (map nflId (selection df game_id play_id))) ->
  (selection df game_id play_id <> [] \/ landing_columns df = false ->
   exists points_array labels ball_land players,
     get_player_points_array sort_rows df game_id play_id
       = Ok (points_array, labels, ball_land) /\
     length points_array = length ids /\
     length labels = length ids /\
     Permutation players ids /\
     StronglySorted Z.lt players /\
     forall i p, nth_error players i = Some p ->
       nth_error points_array i
         = Some (trajectory
                   (player_rows p (sort_rows frameId (selection df game_id play_id)))) /\
       nth_error labels i
         = Some (label_of df p
                   (player_rows p (sort_rows frameId (selection df game_id play_id)))))
  /\
  (selection df game_id play_id = [] -> landing_columns df = true ->
   ids = [] /\
   get_player_points_array sort_rows df game_id play_id = Raise IndexError).
Proof.
  intros Htab Hnd Hids. split.
  - intros Hcase.
    destruct (aggregator_returns df game_id play_id Htab Hcase) as (bl & Hrun).
    cbv zeta in Hrun.
    set (sorted := sort_rows frameId (selection df game_id play_id)) in *.
    set (players := unique_sorted (map nflId sorted)) in *.
    assert (Hperm : Permutation players ids).
    { apply NoDup_Permutation.
      - apply sorted_lt_NoDup, unique_sorted_sorted.
      - assumption.
      - intros p. unfold players, sorted.
        rewrite unique_sorted_In, sort_rows_players. symmetry. apply Hids. }
    do 3 eexists. exists players. split; [exact Hrun|].
    rewrite !length_map. rewrite (Permutation_length Hperm).
    split; [reflexivity|]. split; [reflexivity|]. split; [assumption|].
    split; [apply unique_sorted_sorted|].
    intros i p Hi. rewrite !nth_error_map, Hi. now split.
  - intros Hsel Hland. split.
    + destruct ids as [|p ids']; [reflexivity|].
      exfalso. assert (Hin : In p (p :: ids')) by now left.
      apply Hids in Hin. rewrite Hsel in Hin. destruct Hin.
    + rewrite (selection_empty_run df game_id play_id Htab Hsel), Hland.
      reflexivity.
Qed.

(** C6.  Whenever the aggregator returns, its trajectories are those of
    the selected players, one each, in ascending identifier order: with
    [players] the distinct identifiers of the selected rows in increasing
    order, the trajectory at index [i] is the (x, y) pairs of the rows of
    the [i]-th player exactly as they stand in the frame-sorted selection.
    These rows are in non-decreasing frame order (increasing when the
    player's frames are distinct), and they are the player's selected
    rows, each as often as it occurs (nothing dropped, merged or added).
    The aggregator does return whenever the selection is not empty or a
    landing column is missing. *)
Theorem trajectory_in_frame_order (df : DataFrame) (game_id play_id : Z) :
  tracking_table df ->
  (selection df game_id play_id <> [] \/ landing_columns df = false ->
   exists out, get_player_points_array sort_rows df game_id play_id = Ok out) /\
  forall points_array labels ball_land,
    get_player_points_array sort_rows df game_id play_id
      = Ok (points_array, labels, ball_land) ->
    exists players,
      StronglySorted Z.lt players /\
      (forall p, In p players <-> In p (map nflId (selection df game_id play_id))) /\
      length points_array = length players /\
      (forall i p, nth_error players i = Some p ->
         nth_error points_array i
         = Some (map (fun r => (xPos r, yPos r))
                   (player_rows p
                      (sort_rows frameId (selection df game_id play_id))))) /\
      forall i points, nth_error points_array i = Some points ->
        exists p group,
          nth_error players i = Some p /\
          In p (map nflId (selection df game_id play_id)) /\
          group = player_rows p (sort_rows frameId (selection df game_id play_id)) /\
          points = map (fun r => (xPos r, yPos r)) group /\
          length points = length (player_rows p (selection df game_id play_id)) /\
          Permutation group (player_rows p (selection df game_id play_id)) /\
          StronglySorted (fun a b => frameId a <= frameId b) group /\
          (NoDup (map frameId group) ->
           StronglySorted (fun a b => frameId a < frameId b) group).
Proof.
  intros Htab. split.
  - intros Hcase.
    destruct (aggregator_returns df game_id play_id Htab Hcase) as (bl & Hrun).
    eauto.
  - intros points_array labels ball_land Hrun.
    destruct (aggregator_ok_inv df game_id play_id _ _ _ Htab Hrun) as [-> _].
    set (sorted := sort_rows frameId (selection df game_id play_id)).
    assert (Hplayers : forall p,
              In p (unique_sorted (map nflId sorted))
              <-> In p (map nflId (selection df game_id play_id))).
    { intros p. unfold sorted. now rewrite unique_sorted_In, sort_rows_players. }
    exists (unique_sorted (map nflId sorted)).
    split; [apply unique_sorted_sorted|].
    split; [exact Hplayers|].
    split; [apply length_map|].
    split.
    { intros i p Hi. rewrite nth_error_map, Hi. reflexivity. }
    intros i points Hi.
    rewrite nth_error_map in Hi.
    destruct (nth_error (unique_sorted (map nflId sorted)) i) as [p|] eqn:Hp;
      [|discriminate].
    injection Hi as <-.
    assert (Hperm : Permutation (player_rows p sorted)
                      (player_rows p (selection df game_id play_id)))
      by apply filter_perm, sort_rows_perm.
    assert (Hsorted : StronglySorted (fun a b => frameId a <= frameId b)
                        (player_rows p sorted))
      by apply filter_sorted, sort_rows_sorted.
    exists p, (player_rows p sorted).
    split; [reflexivity|].
    split; [apply Hplayers; eapply nth_error_In; exact Hp|].
    split; [reflexivity|]. split; [reflexivity|].
    split; [unfold trajectory; rewrite length_map; now apply Permutation_length|].
    split; [assumption|]. split; [assumption|].
    now apply sorted_strict.
Qed.

(** C10.  For a player [p] of the selection, with [first] the first of
    the player's rows in frame order: the aggregator returns, and the
    label it gives the player (at the index of the player's trajectory)
    is the name cell of [first] whenever the name column is in the schema
    (so the missing value itself when that cell is missing), and the
    synthesized "Player <id>" exactly when the column is absent from the
    schema. *)
Theorem label_of_first_name_cell (df : DataFrame) (game_id play_id p : Z) :
  tracking_table df ->
  In p (map nflId (selection df game_id play_id)) ->
  exists points_array labels ball_land i first rest,
    get_player_points_array sort_rows df game_id play_id
      = Ok (points_array, labels, ball_land) /\
    player_rows p (sort_rows frameId (selection df game_id play_id))
      = first :: rest /\
    (forall r, In r (player_rows p (selection df game_id play_id)) ->
               frameId first <= frameId r) /\
    nth_error points_array i
      = Some (map (fun r => (xPos r, yPos r)) (first :: rest)) /\
    (has_column df PLAYER_NAME = true ->
     nth_error labels i = Some (playerName first)) /\
    (has_column df PLAYER_NAME = true -> playerName first = NA ->
     nth_error labels i = Some NA) /\
    (has_column df PLAYER_NAME = false ->
     nth_error labels i = Some (Str ("Player " ++ str p)%string)).
Proof.
  intros Htab Hp.
  assert (Hsel : selection df game_id play_id <> []).
  { intros E. rewrite E in Hp. destruct Hp. }
  destruct (aggregator_returns df game_id play_id Htab (or_introl Hsel))
    as (bl & Hrun).
  cbv zeta in Hrun.
  set (sorted := sort_rows frameId (selection df game_id play_id)) in *.
  assert (Hps : In p (map nflId sorted))
    by (apply sort_rows_players; assumption).
  destruct (player_rows_nonempty p sorted Hps) as (first & rest & Hrows).
  assert (Hplayer : In p (unique_sorted (map nflId sorted)))
    by (apply unique_sorted_In; assumption).
  destruct (In_nth_error _ _ Hplayer) as (i & Hi).
  do 3 eexists. exists i, first, rest.
  split; [exact Hrun|]. split; [assumption|]. split.
  { intros r Hr.
    apply (sorted_head_least frameId first rest).
    - rewrite <- Hrows. apply filter_sorted, sort_rows_sorted.
    - rewrite <- Hrows.
      apply (Permutation_in r (Permutation_sym
               (filter_perm _ _ _ (sort_rows_perm frameId _)))).
      assumption. }
  rewrite !nth_error_map, Hi. cbn [option_map].
  unfold label_of. rewrite Hrows. cbn [map hd].
  split; [reflexivity|].
  split; [intros ->; reflexivity|].
  split; [intros -> ->; reflexivity|].
  intros ->; reflexivity.
Qed.

End Aggregator.

(** *** The aggregator theorems at the example tables, under the
    reference sorter *)

Lemma empty_selection_outcome_witness :
  (tracking_table example_df /\ selection example_df 100 9 = []) /\
  (landing_columns example_df = false ->
   get_player_points_array insertion_sort example_df 100 9 = Ok ([], [], None)) /\
  (landing_columns example_df = true ->
   get_player_points_array insertion_sort example_df 100 9 = Raise IndexError).
Proof.
  split; [split; [repeat constructor | reflexivity]|].
  apply (empty_selection_outcome insertion_sort insertion_sort_perm
           example_df 100 9); [repeat constructor | reflexivity].
Defined.

Lemma landing_point_of_first_row_witness :
  (tracking_table named_df /\ selection named_df 100 7 <> []) /\
  exists first rest points_array labels ball_land,
    insertion_sort frameId (selection named_df 100 7) = first :: rest /\
    In first (selection named_df 100 7) /\
    (forall r, In r (selection named_df 100 7) -> frameId first <= frameId r) /\
    get_player_points_array insertion_sort named_df 100 7
      = Ok (points_array, labels, ball_land) /\
    (ball_land <> None <->
       has_column named_df BALL_LAND_X = true /\
       has_column named_df BALL_LAND_Y = true /\
       PrimFloat.is_nan (ballLandX first) = false /\
       PrimFloat.is_nan (ballLandY first) = false) /\
    (ball_land <> None -> ball_land = Some (ballLandX first, ballLandY first)).
Proof.
  split; [split; [repeat constructor | discriminate]|].
  apply (landing_point_of_first_row insertion_sort insertion_sort_perm
           insertion_sort_sorted named_df 100 7);
    [repeat constructor | discriminate].
Defined.

Lemma one_trajectory_and_label_per_player_witness :
  (tracking_table example_df /\ NoDup [2; 1] /\
   (forall p, In p [2; 1] <-> In p (map nflId (selection example_df 100 7)))) /\
  (selection example_df 100 7 <> [] \/ landing_columns example_df = false ->
   exists points_array labels ball_land players,
     get_player_points_array insertion_sort example_df 100 7
       = Ok (points_array, labels, ball_land) /\
     length points_array = length [2; 1] /\
     length labels = length [2; 1] /\
     Permutation players [2; 1] /\
     StronglySorted Z.lt players /\
     forall i p, nth_error players i = Some p ->
       nth_error points_array i
         = Some (trajectory
                   (player_rows p (insertion_sort frameId (selection example_df 100 7)))) /\
       nth_error labels i
         = Some (label_of example_df p
                   (player_rows p (insertion_sort frameId (selection example_df 100 7)))))
  /\
  (selection example_df 100 7 = [] -> landing_columns example_df = true ->
   [2; 1] = [] /\
   get_player_points_array insertion_sort example_df 100 7 = Raise IndexError).
Proof.
  assert (Hnd : NoDup [2; 1]).
  { repeat constructor; simpl; intuition discriminate. }
  assert (Hids : forall p,
             In p [2; 1] <-> In p (map nflId (selection example_df 100 7))).
  { intros p. simpl. intuition. }
  split; [split; [repeat constructor | split; assumption]|].
  apply (one_trajectory_and_label_per_player insertion_sort insertion_sort_perm
           insertion_sort_sorted example_df 100 7 [2; 1]);
    [repeat constructor | assumption | assumption].
Defined.

Lemma trajectory_in_frame_order_witness :
  tracking_table example_df /\
  (selection example_df 100 7 <> [] \/ landing_columns example_df = false ->
   exists out, get_player_points_array insertion_sort example_df 100 7 = Ok out) /\
  forall points_array labels ball_land,
    get_player_points_array insertion_sort example_df 100 7
      = Ok (points_array, labels, ball_land) ->
    exists players,
      StronglySorted Z.lt players /\
      (forall p, In p players <-> In p (map nflId (selection example_df 100 7))) /\
      length points_array = length players /\
      (forall i p, nth_error players i = Some p ->
         nth_error points_array i
         = Some (map (fun r => (xPos r, yPos r))
                   (player_rows p
                      (insertion_sort frameId (selection example_df 100 7))))) /\
      forall i points, nth_error points_array i = Some points ->
        exists p group,
          nth_error players i = Some p /\
          In p (map nflId (selection example_df 100 7)) /\
          group = player_rows p (insertion_sort frameId (selection example_df 100 7)) /\
          points = map (fun r => (xPos r, yPos r)) group /\
          length points = length (player_rows p (selection example_df 100 7)) /\
          Permutation group (player_rows p (selection example_df 100 7)) /\
          StronglySorted (fun a b => frameId a <= frameId b) group /\
          (NoDup (map frameId group) ->
           StronglySorted (fun a b => frameId a < frameId b) group).
Proof.
  split; [repeat constructor|].
  apply (trajectory_in_frame_order insertion_sort insertion_sort_perm
           insertion_sort_sorted example_df 100 7).
  repeat constructor.
Defined.

Lemma label_of_first_name_cell_witness :
  (tracking_table named_df /\ In 2 (map nflId (selection named_df 100 7))) /\
  exists points_array labels ball_land i first rest,
    get_player_points_array insertion_sort named_df 100 7
      = Ok (points_array, labels, ball_land) /\
    player_rows 2 (insertion_sort frameId (selection named_df 100 7))
      = first :: rest /\
    (forall r, In r (player_rows 2 (selection named_df 100 7)) ->
               frameId first <= frameId r) /\
    nth_error points_array i
      = Some (map (fun r => (xPos r, yPos r)) (first :: rest)) /\
    (has_column named_df PLAYER_NAME = true ->
     nth_error labels i = Some (playerName first)) /\
    (has_column named_df PLAYER_NAME = true -> playerName first = NA ->
     nth_error labels i = Some NA) /\
    (has_column named_df PLAYER_NAME = false ->
     nth_error labels i = Some (Str ("Player " ++ str 2)%string)).
Proof.
  split; [split; [repeat constructor | simpl; auto]|].
  apply (label_of_first_name_cell insertion_sort insertion_sort_perm
           insertion_sort_sorted named_df 100 7 2);
    [repeat constructor | simpl; auto].
Defined.

(* ================================================================== *)
(** ** Role Filter *)

Example is_offensive_player_example :
  is_offensive_player [Str "Passer"; Str "Blocker"; Str "Targeted Receiver"; NA]
  = [true; false; true; false].
Proof. reflexivity. Qed.

(** C7.  [is_offensive_player] is a total function to a mask of the
    length of its input, whose i-th entry is true exactly when the i-th
    role is "Other Route Runner", "Passer" or "Targeted Receiver"; a
    missing role and any other string give false. *)
Theorem is_offensive_player_mask (player_role : list strcell) :
  length (is_offensive_player player_role) = length player_role /\
  (forall i role, nth_error player_role i = Some role ->
     exists b, nth_error (is_offensive_player player_role) i = Some b /\
       (b = true <-> role = Str "Other Route Runner" \/ role = Str "Passer" \/
                     role = Str "Targeted Receiver")) /\
  (forall i, nth_error player_role i = Some NA ->
     nth_error (is_offensive_player player_role) i = Some false).
Proof.
  unfold is_offensive_player, isin. split; [apply length_map|]. split.
  - intros i role Hi. rewrite nth_error_map, Hi. cbn [option_map].
    eexists. split; [reflexivity|].
    destruct role as [v|].
    + cbn [existsb]. rewrite !orb_true_iff, !String.eqb_eq.
      split.
      * intros [->|[->|[->|H]]]; [auto | auto | auto | discriminate].
      * intros [H|[H|H]]; injection H as ->; auto.
    + split; [discriminate|]. intros [H|[H|H]]; discriminate.
  - intros i Hi. rewrite nth_error_map, Hi. reflexivity.
Qed.

(* ================================================================== *)
(** ** Rendering: traces of sequenced calls and loops *)

Lemma pick_app {A B : Type} (f : A -> option B) (l l' : list A) :
  pick f (l ++ l') = pick f l ++ pick f l'.
Proof. apply flat_map_app. Qed.

Lemma pick_skip {A B : Type} (f : A -> option B) (a : A) (l : list A) :
  f a = None -> pick f (a :: l) = pick f l.
Proof. intros H. unfold pick. simpl. now rewrite H. Qed.

Lemma pick_map_none {A B C : Type} (f : A -> option B) (g : C -> A) (l : list C) :
  (forall c, f (g c) = None) -> pick f (map g l) = [].
Proof.
  intros H. induction l as [|c l IH]; [reflexivity|].
  cbn [map]. now rewrite pick_skip.
Qed.

Lemma pick_flat_map {A B C : Type} (f : A -> option B) (g : C -> list A)
  (l : list C) :
  pick f (flat_map g l) = flat_map (fun c => pick f (g c)) l.
Proof.
  induction l as [|c l IH]; [reflexivity|].
  cbn [flat_map]. now rewrite pick_app, IH.
Qed.

Lemma flat_map_ext_in {A B : Type} (f g : A -> list B) (l : list A) :
  (forall a, In a l -> f a = g a) -> flat_map f l = flat_map g l.
Proof.
  induction l as [|a l IH]; intros H; [reflexivity|].
  cbn [flat_map]. rewrite (H a (or_introl eq_refl)), IH; [reflexivity|].
  intros b Hb. apply H. now right.
Qed.

Lemma fst_bind_emit {B : Type} (c : call) (k : unit -> plt B) :
  fst (bind (emit c) k) = c :: fst (k tt).
Proof. cbn. now destruct (k tt). Qed.

Lemma snd_bind_emit {B : Type} (c : call) (k : unit -> plt B) :
  snd (bind (emit c) k) = snd (k tt).
Proof. cbn. now destruct (k tt). Qed.

Lemma fst_bind_ok {A B : Type} (m : plt A) (k : A -> plt B) (t : list call) (a : A) :
  m = (t, Ok a) -> fst (bind m k) = t ++ fst (k a).
Proof. intros ->. cbn. now destruct (k a). Qed.

Lemma snd_bind_ok {A B : Type} (m : plt A) (k : A -> plt B) (t : list call) (a : A) :
  m = (t, Ok a) -> snd (bind m k) = snd (k a).
Proof. intros ->. cbn. now destruct (k a). Qed.

(** A loop whose iterations all complete issues their calls in order. *)
Lemma for_in_trace {A : Type} (xs : list A) (body : A -> unit -> plt unit) :
  (forall a, In a xs -> snd (body a tt) = Ok tt) ->
  for_in xs body tt = (flat_map (fun a => fst (body a tt)) xs, Ok tt).
Proof.
  induction xs as [|a xs IH]; intros H; [reflexivity|].
  cbn [for_in flat_map].
  pose proof (H a (or_introl eq_refl)) as Ha.
  destruct (body a tt) as [t r] eqn:E. cbn [snd] in Ha. subst r.
  cbn [bind plt_Monad fst snd].
  rewrite IH by (intros b Hb; apply H; now right). reflexivity.
Qed.

(** *** Indices: [range] and [enumerate] *)

Lemma length_range_len {A : Type} (l : list A) : length (range (len l)) = length l.
Proof. unfold range, len. rewrite length_map, length_seq. lia. Qed.

Lemma combine_fst {A B : Type} (l : list A) (l' : list B) :
  length l = length l' -> map fst (combine l l') = l.
Proof.
  revert l'. induction l as [|a l IH]; intros [|b l'] H; simpl in *;
    try discriminate; [reflexivity|]. f_equal. apply IH. lia.
Qed.

Lemma combine_snd {A B : Type} (l : list A) (l' : list B) :
  length l = length l' -> map snd (combine l l') = l'.
Proof.
  revert l'. induction l as [|a l IH]; intros [|b l'] H; simpl in *;
    try discriminate; [reflexivity|]. f_equal. apply IH. lia.
Qed.

Lemma enumerate_fst {A : Type} (l : list A) : map fst (enumerate l) = range (len l).
Proof. apply combine_fst, length_range_len. Qed.

Lemma enumerate_snd {A : Type} (l : list A) : map snd (enumerate l) = l.
Proof. apply combine_snd, length_range_len. Qed.

Lemma range_In (n i : Z) : In i (range n) -> 0 <= i < n.
Proof.
  unfold range. intros H. apply in_map_iff in H. destruct H as (k & <- & Hk).
  apply in_seq in Hk. lia.
Qed.

Lemma enumerate_In {A : Type} (l : list A) (i : Z) (a : A) :
  In (i, a) (enumerate l) -> 0 <= i < len l.
Proof. intros H. apply in_combine_l in H. now apply range_In. Qed.

Lemma range_nth_error (n i : Z) :
  0 <= i < n -> nth_error (range n) (Z.to_nat i) = Some i.
Proof.
  intros Hi. unfold range. rewrite nth_error_map.
  rewrite (nth_error_nth' _ 0%nat) by (rewrite length_seq; lia).
  rewrite seq_nth by lia. cbn [option_map]. f_equal. lia.
Qed.

(** *** Colours *)

(** The colour the renderer reads for trajectory [i] of [n]. *)
Lemma tab10_getitem (n i : Z) :
  0 <= i < n ->
  exists c, clamped_color i = Some c /\ getitem (tab10 (range n)) i = Ok c.
Proof.
  intros Hi.
  assert (Hlen : len (tab10 (range n)) = n).
  { unfold tab10, range, len. rewrite !length_map, length_seq. lia. }
  destruct (getitem_ok (tab10 (range n)) i) as (c & Hnth & Hget); [lia|].
  exists c. split; [|assumption].
  unfold tab10 in Hnth. rewrite nth_error_map, range_nth_error in Hnth by lia.
  cbn [option_map] in Hnth. injection Hnth as <-.
  unfold clamped_color. change (len tab10_lut - 1) with 9.
  destruct (Z.ltb_spec 9 i).
  - rewrite Z.min_r by lia. reflexivity.
  - destruct (Z.ltb_spec i 0); [lia|]. rewrite Z.min_l by lia.
    apply (nth_error_nth' tab10_lut (0, 0, 0)).
    change (length tab10_lut) with 10%nat. lia.
Qed.

Lemma fst_bind_ret {A B : Type} (a : A) (k : A -> plt B) :
  fst (bind (ret a) k) = fst (k a).
Proof. cbn. now destruct (k a). Qed.

Lemma snd_bind_ret {A B : Type} (a : A) (k : A -> plt B) :
  snd (bind (ret a) k) = snd (k a).
Proof. cbn. now destruct (k a). Qed.

Lemma for_in_emit {A : Type} (xs : list A) (g : A -> call) :
  for_in xs (fun a (_ : unit) => emit (g a)) tt = (map g xs, Ok tt).
Proof.
  induction xs as [|a xs IH]; [reflexivity|].
  cbn [for_in map bind plt_Monad emit]. now rewrite IH.
Qed.

Lemma flat_map_enumerate_snd {A B : Type} (F : A -> list B) (l : list A) :
  flat_map (fun ip => F (snd ip)) (enumerate l) = flat_map F l.
Proof.
  rewrite !flat_map_concat_map, <- (map_map snd F), enumerate_snd. reflexivity.
Qed.

Lemma flat_map_enumerate_fst {A B : Type} (F : Z -> list B) (l : list A) :
  flat_map (fun ip => F (fst ip)) (enumerate l) = flat_map F (range (len l)).
Proof.
  rewrite !flat_map_concat_map, <- (map_map fst F), enumerate_fst. reflexivity.
Qed.

Lemma flat_map_singleton {A B : Type} (f : A -> B) (l : list A) :
  flat_map (fun a => [f a]) l = map f l.
Proof.
  induction l as [|a l IH]; [reflexivity|]. cbn [flat_map map app]. now rewrite IH.
Qed.

(** *** The arrow of one trajectory *)

Lemma final_segment_two (pre : list (float * float)) (a b : float * float) :
  final_segment (pre ++ [a; b])
  = [ (a, (PrimFloat.sub (fst b) (fst a), PrimFloat.sub (snd b) (snd a))) ].
Proof. unfold final_segment. rewrite rev_app_distr. reflexivity. Qed.

Lemma final_segment_short (points : list (float * float)) :
  (length points < 2)%nat -> final_segment points = [].
Proof.
  destruct points as [|a [|b l]]; intros H; try reflexivity.
  simpl in H. lia.
Qed.

(** One iteration of the trajectory loop, at an index that has a colour:
    it completes, plots the line in that colour, and draws the arrow of
    the final segment when there is one. *)
Lemma plot_trajectory_run (colors : list rgb) (labels : option (list strcell))
  (i : Z) (points : list (float * float)) (c : rgb) :
  0 <= i -> getitem colors i = Ok c ->
  snd (plot_trajectory colors labels (i, points) tt) = Ok tt /\
  pick line_coords (fst (plot_trajectory colors labels (i, points) tt))
    = [(map fst points, map snd points)] /\
  pick line_color (fst (plot_trajectory colors labels (i, points) tt)) = [c] /\
  pick arrow_geometry (fst (plot_trajectory colors labels (i, points) tt))
    = final_segment points.
Proof.
  intros Hi Hc. unfold plot_trajectory. cbn [fst snd].
  match goal with
  | |- context [lift ?e] =>
      assert (Hlabel : exists label, e = Ok label)
  end.
  { destruct labels as [ls|]; [|eexists; reflexivity].
    destruct (negb (len ls =? 0) && (i <? len ls)) eqn:E;
      [|eexists; reflexivity].
    apply andb_prop in E. destruct E as [_ E]. apply Z.ltb_lt in E.
    destruct (getitem_ok ls i) as (label & _ & Hl); [lia|]. eauto. }
  destruct Hlabel as (label & ->). rewrite Hc.
  destruct (Z.leb_spec 2 (len points)) as [Hlen|Hlen].
  - destruct (two_last points) as (pre & a & b & ->); [unfold len in Hlen; lia|].
    rewrite final_segment_two, !map_app. cbn [map].
    cbn [bind plt_Monad lift emit fst snd app].
    rewrite !getitem_last, !getitem_prev.
    cbn [bind plt_Monad lift emit fst snd app].
    destruct a, b. repeat split; reflexivity.
  - rewrite final_segment_short by (unfold len in Hlen; lia).
    cbn [bind plt_Monad lift emit fst snd app ret]. repeat split; reflexivity.
Qed.

(** The trajectory loop of [plot_multiple_points] completes, and issues
    what its iterations issue. *)
Lemma trajectory_loop (points_array : list (list (float * float)))
  (labels : option (list strcell)) :
  for_in (enumerate points_array)
         (plot_trajectory (tab10 (range (len points_array))) labels) tt
  = (flat_map (fun ip => fst (plot_trajectory
                                (tab10 (range (len points_array))) labels ip tt))
              (enumerate points_array),
     Ok tt).
Proof.
  apply for_in_trace. intros [i points] Hin.
  apply enumerate_In in Hin.
  destruct (tab10_getitem (len points_array) i Hin) as (c & _ & Hc).
  apply (plot_trajectory_run _ labels i points c); [lia | assumption].
Qed.

(** Walks through the calls of [plot_multiple_points] up to its outcome. *)
Ltac run_plot :=
  repeat first
    [ rewrite snd_bind_emit; cbv beta
    | rewrite (snd_bind_ok _ _ _ tt (for_in_emit _ _)); cbv beta
    | rewrite (snd_bind_ok _ _ _ tt (trajectory_loop _ _)); cbv beta
    | rewrite snd_bind_ret; cbv beta ].

Section MultiRenderer.

Variable points_array : list (list (float * float)).
Variable ball_land : option (float * float).
Variable game_id play_id : option Z.
Variable labels : option (list strcell).

Let out : plt unit :=
  plot_multiple_points points_array ball_land game_id play_id labels.

Lemma plot_multiple_points_completes : snd out = Ok tt.
Proof.
  unfold out, plot_multiple_points. cbv zeta.
  destruct ball_land; run_plot; reflexivity.
Qed.

(** What an observation picks from the whole trace is what it picks from
    the iterations of the trajectory loop. *)
Lemma pick_trajectory_loop {B : Type} (f : call -> option B) :
  (forall c, trajectory_line c = None -> arrow_geometry c = None -> f c = None) ->
  pick f (fst out)
  = flat_map (fun ip => pick f (fst (plot_trajectory
                                       (tab10 (range (len points_array)))
                                       labels ip tt)))
             (enumerate points_array).
Proof.
  intros Hf. unfold out, plot_multiple_points. cbv zeta.
  assert (Hskip : forall c l, trajectory_line c = None ->
                              arrow_geometry c = None ->
                              pick f (c :: l) = pick f l)
    by (intros; apply pick_skip; auto).
  assert (Hyards : forall (g : Z -> call) l,
            (forall a, trajectory_line (g a) = None) ->
            (forall a, arrow_geometry (g a) = None) ->
            pick f (map g l) = [])
    by (intros; apply pick_map_none; auto).
  destruct ball_land;
    repeat first
      [ rewrite fst_bind_emit; cbv beta; rewrite Hskip by reflexivity
      | rewrite (fst_bind_ok _ _ _ tt (for_in_emit _ _)); cbv beta;
        rewrite pick_app, Hyards by reflexivity; cbn [app]
      | rewrite (fst_bind_ok _ _ _ tt (trajectory_loop _ _)); cbv beta;
        rewrite pick_app
      | rewrite fst_bind_ret; cbv beta ];
    cbn [emit fst]; rewrite Hskip by reflexivity;
    cbn [pick flat_map]; rewrite app_nil_r; apply pick_flat_map.
Qed.

(** What an iteration at a valid index issues. *)
Lemma plot_trajectory_in (ip : Z * list (float * float)) :
  In ip (enumerate points_array) ->
  exists c,
    clamped_color (fst ip) = Some c /\
    pick line_coords (fst (plot_trajectory (tab10 (range (len points_array)))
                             labels ip tt))
      = [(map fst (snd ip), map snd (snd ip))] /\
    pick line_color (fst (plot_trajectory (tab10 (range (len points_array)))
                            labels ip tt)) = [c] /\
    pick arrow_geometry (fst (plot_trajectory (tab10 (range (len points_array)))
                                labels ip tt))
      = final_segment (snd ip).
Proof.
  destruct ip as [i points]. intros Hin. apply enumerate_In in Hin.
  destruct (tab10_getitem (len points_array) i Hin) as (c & Hcol & Hc).
  exists c. split; [assumption|].
  apply (plot_trajectory_run _ labels i points c); [lia | assumption].
Qed.

Lemma plot_multiple_points_lines :
  pick line_coords (fst out)
  = map (fun points => (map fst points, map snd points)) points_array.
Proof.
  rewrite pick_trajectory_loop
    by (unfold line_coords; intros c -> _; reflexivity).
  rewrite (flat_map_ext_in _
             (fun ip => [(map fst (snd ip), map snd (snd ip))])).
  - rewrite (flat_map_enumerate_snd
               (fun points => [(map fst points, map snd points)])).
    apply flat_map_singleton.
  - intros ip Hin. now destruct (plot_trajectory_in ip Hin) as (c & _ & -> & _).
Qed.

Lemma plot_multiple_points_arrows :
  pick arrow_geometry (fst out) = flat_map final_segment points_array.
Proof.
  rewrite pick_trajectory_loop by auto.
  rewrite (flat_map_ext_in _ (fun ip => final_segment (snd ip))).
  - apply flat_map_enumerate_snd.
  - intros ip Hin.
    now destruct (plot_trajectory_in ip Hin) as (c & _ & _ & _ & ->).
Qed.

Lemma plot_multiple_points_colors :
  pick line_color (fst out) = pick clamped_color (range (len points_array)).
Proof.
  rewrite pick_trajectory_loop
    by (unfold line_color; intros c -> _; reflexivity).
  rewrite (flat_map_ext_in _
             (fun ip => match clamped_color (fst ip) with
                        | Some c => [c]
                        | None => []
                        end)).
  - apply (flat_map_enumerate_fst
             (fun i => match clamped_color i with Some c => [c] | None => [] end)).
  - intros ip Hin.
    now destruct (plot_trajectory_in ip Hin) as (c & -> & _ & -> & _).
Qed.

End MultiRenderer.

(* ================================================================== *)
(** ** Field Renderer (multi-trajectory) *)

Example plot_multiple_points_example :
  let out := plot_multiple_points
               [ [(10, 20); (12, 21); (14, 22)]; [(5, 5)]; [] ]%float
               (Some (60, 10)%float) (Some 100) (Some 7)
               (Some [Str "A"; NA]) in
  snd out = Ok tt /\
  pick arrow_geometry (fst out) = [ ((12, 21), (2, 1)) ]%float /\
  pick trajectory_line (fst out)
  = [ ([10; 12; 14]%float, [20; 21; 22]%float, (31, 119, 180), Str "A");
      ([5]%float, [5]%float, (255, 127, 14), NA);
      ([], [], (44, 160, 44), Str "Player 3") ].
Proof. vm_compute. repeat split; reflexivity. Qed.

(** C9.  [plot_multiple_points] completes on every input.  It plots one
    line per trajectory, whatever the number of its points, and the
    arrows it draws are, trajectory by trajectory in input order, the
    final segment of each trajectory that has at least two points:
    anchored at the second-to-last point, displaced by the last point
    minus the second-to-last.  A trajectory with fewer than two points
    contributes its line and no arrow, and what is drawn for the
    trajectories before and after it does not depend on it. *)
Theorem arrow_per_trajectory
  (points_array : list (list (float * float)))
  (ball_land : option (float * float)) (game_id play_id : option Z)
  (labels : option (list strcell)) :
  let out := plot_multiple_points points_array ball_land game_id play_id labels in
  snd out = Ok tt /\
  pick line_coords (fst out)
    = map (fun points => (map fst points, map snd points)) points_array /\
  pick arrow_geometry (fst out) = flat_map final_segment points_array /\
  (forall before points after,
     points_array = before ++ points :: after ->
     pick arrow_geometry (fst out)
     = flat_map final_segment before ++ final_segment points
       ++ flat_map final_segment after) /\
  (forall points,
     (2 <= length points)%nat ->
     exists pre prev last,
       points = pre ++ [prev; last] /\
       final_segment points
       = [ (prev, (PrimFloat.sub (fst last) (fst prev),
                   PrimFloat.sub (snd last) (snd prev))) ]) /\
  (forall points, (length points < 2)%nat -> final_segment points = []).
Proof.
  cbv zeta.
  split; [apply plot_multiple_points_completes|].
  split; [apply plot_multiple_points_lines|].
  split; [apply plot_multiple_points_arrows|].
  split; [|split].
  - intros before points after ->.
    rewrite plot_multiple_points_arrows, flat_map_app. reflexivity.
  - intros points Hlen.
    destruct (two_last points Hlen) as (pre & prev & last & ->).
    exists pre, prev, last. split; [reflexivity | apply final_segment_two].
  - apply final_segment_short.
Qed.

(** C8 (as the code has it).  For any number of trajectories the colour
    read at every trajectory index is defined and reading it does not
    fail; the renderer completes and plots trajectory [i] in that colour.
    The colour is the [i]-th of the ten palette colours for [i < 10], and
    the last palette colour for every [i >= 10]: past the palette the
    assignment is clamped, it does not wrap around. *)
Theorem color_per_trajectory
  (points_array : list (list (float * float)))
  (ball_land : option (float * float)) (game_id play_id : option Z)
  (labels : option (list strcell)) :
  let out := plot_multiple_points points_array ball_land game_id play_id labels in
  snd out = Ok tt /\
  length (pick line_color (fst out)) = length points_array /\
  (10 <= length tab10_lut)%nat /\
  forall i, 0 <= i < len points_array ->
    exists c,
      getitem (tab10 (range (len points_array))) i = Ok c /\
      nth_error (pick line_color (fst out)) (Z.to_nat i) = Some c /\
      clamped_color i = Some c /\
      (i < 10 -> nth_error tab10_lut (Z.to_nat i) = Some c) /\
      (10 <= i -> nth_error tab10_lut 9 = Some c).
Proof.
  cbv zeta.
  split; [apply plot_multiple_points_completes|].
  assert (Hcolors :
    pick line_color
      (fst (plot_multiple_points points_array ball_land game_id play_id labels))
    = map (fun i => nth (Z.to_nat (Z.min i 9)) tab10_lut (0, 0, 0))
          (range (len points_array))).
  { rewrite plot_multiple_points_colors. unfold pick.
    rewrite <- flat_map_singleton. apply flat_map_ext_in.
    intros i Hi. apply range_In in Hi. unfold clamped_color.
    change (len tab10_lut - 1) with 9.
    rewrite (nth_error_nth' tab10_lut (0, 0, 0)); [reflexivity|].
    change (length tab10_lut) with 10%nat. lia. }
  rewrite Hcolors. split; [now rewrite length_map, length_range_len|].
  split; [apply Nat.le_refl|].
  intros i Hi.
  destruct (tab10_getitem (len points_array) i Hi) as (c & Hcol & Hget).
  exists c. split; [assumption|].
  rewrite nth_error_map, range_nth_error by assumption. cbn [option_map].
  assert (Hc : c = nth (Z.to_nat (Z.min i 9)) tab10_lut (0, 0, 0)).
  { unfold clamped_color in Hcol. change (len tab10_lut - 1) with 9 in Hcol.
    rewrite (nth_error_nth' tab10_lut (0, 0, 0)) in Hcol
      by (change (length tab10_lut) with 10%nat; lia).
    now injection Hcol. }
  split; [now rewrite Hc|]. split; [assumption|].
  rewrite Hc. split; intros Hi10.
  - rewrite Z.min_l by lia. apply nth_error_nth'.
    change (length tab10_lut) with 10%nat. lia.
  - rewrite Z.min_r by lia. reflexivity.
Qed.

(** C8 as stated fails: of eleven trajectories the last (index 10) is
    plotted in the last palette colour, not in [palette[10 mod 10]], the
    first. *)
Lemma eleven_trajectories_color :
  nth_error
    (pick line_color
       (fst (plot_multiple_points (repeat [] 11) None None None None))) 10
  = Some (23, 190, 207) /\
  wraparound_color 10 = Some (31, 119, 180) /\
  nth_error
    (pick line_color
       (fst (plot_multiple_points (repeat [] 11) None None None None))) 10
  <> wraparound_color 10.
Proof.
  split; [vm_compute; reflexivity|].
  split; [vm_compute; reflexivity|].
  vm_compute. discriminate.
Qed.

(* ================================================================== *)
(** ** Field Renderer (single-trajectory) *)

Example plot_single_trajectory_one_point :
  plot_single_trajectory [(5, 5)%float] None None
  = ([ Call "plt.figure" [] [("figsize", Pair 12 5)];
       Call "plt.xlim" [Num (-5); Num 125] [];
       Call "plt.ylim" [Num (-5); Num 58] [];
       Call "plt.plot" [Nums [5%float]; Nums [5%float]; Text "b-o"]
         [("markersize", Num 4); ("linewidth", Num 1)];
       Call "plt.plot" [Num 5; Num 5; Text "go"]
         [("markersize", Num 10); ("label", Text "Start")];
       Call "plt.plot" [Num 5; Num 5; Text "ro"]
         [("markersize", Num 10); ("label", Text "End")];
       Call "plt.xlabel" [Text "X (yards)"] [];
       Call "plt.ylabel" [Text "Y (yards)"] [];
       Call "plt.title" [Text "Player Trajectory"] [];
       Call "plt.grid" [Flag true] [("alpha", Num 0.3)];
       Call "plt.legend" [] [];
       Call "plt.gca().set_aspect" [Text "auto"] [];
       Call "plt.show" [] [] ],
     Ok tt).
Proof. vm_compute. reflexivity. Qed.

(** C2 (as the code has it).  On the empty trajectory
    [plot_single_trajectory] makes no check of its own: it opens the
    figure, sets both axis limits and plots the empty line, and then the
    [IndexError] of reading the first point surfaces.  The empty
    trajectory is the only one it fails on. *)
Theorem empty_trajectory_index_fault (game_id play_id : option Z) :
  plot_single_trajectory [] game_id play_id
  = ([ Call "plt.figure" [] [("figsize", Pair 12 5)];
       Call "plt.xlim" [Num (-5); Num 125] [];
       Call "plt.ylim" [Num (-5); Num 58] [];
       Call "plt.plot" [Nums []; Nums []; Text "b-o"]
         [("markersize", Num 4); ("linewidth", Num 1)] ],
     Raise IndexError) /\
  forall points, points <> [] ->
    snd (plot_single_trajectory points game_id play_id) = Ok tt.
Proof.
  split; [reflexivity|].
  intros points Hne.
  destruct (exists_last Hne) as (front & final & Hlast).
  destruct points as [|first rest]; [contradiction|].
  unfold plot_single_trajectory. cbv zeta.
  rewrite !snd_bind_emit.
  assert (Hx : getitem (map fst (first :: rest)) (-1) = Ok (fst final))
    by (rewrite Hlast, map_app; apply getitem_end).
  assert (Hy : getitem (map snd (first :: rest)) (-1) = Ok (snd final))
    by (rewrite Hlast, map_app; apply getitem_end).
  cbn [map] in *. rewrite !getitem_0.
  cbn [bind plt_Monad lift emit fst snd app]. rewrite Hx, Hy. reflexivity.
Qed.

(** C2 as stated fails: the empty trajectory is not rejected explicitly;
    four plotting calls are issued and an index fault is what is raised. *)
Lemma empty_trajectory_not_rejected :
  length (fst (plot_single_trajectory [] None None)) = 4%nat /\
  snd (plot_single_trajectory [] None None) = Raise IndexError /\
  ~ rejects_explicitly (plot_single_trajectory [] None None).
Proof.
  split; [reflexivity|]. split; [reflexivity|].
  intros [Hfst _]. discriminate.
Qed.

(* ================================================================== *)
(** ** Play Aggregator: outcomes, composition and invariance *)

(** *** Sorted lists are determined by their elements *)

Lemma sorted_lt_unique (l1 l2 : list Z) :
  StronglySorted Z.lt l1 -> StronglySorted Z.lt l2 ->
  (forall a, In a l1 <-> In a l2) -> l1 = l2.
Proof.
  intros H1. revert l2.
  induction H1 as [|a t1 Hs1 IH Hall1]; intros l2 H2 Hin.
  - destruct l2 as [|b t2]; [reflexivity|].
    exfalso. apply (Hin b). now left.
  - destruct H2 as [|b t2 Hs2 Hall2].
    + exfalso. apply (Hin a). now left.
    + rewrite Forall_forall in Hall1, Hall2.
      assert (Hab : a = b).
      { destruct (proj1 (Hin a) (or_introl eq_refl)) as [E|Ha]; [auto|].
        destruct (proj2 (Hin b) (or_introl eq_refl)) as [E|Hb]; [auto|].
        specialize (Hall1 _ Hb). specialize (Hall2 _ Ha). lia. }
      subst b. f_equal. apply IH; [assumption|].
      intros c. split; intros Hc.
      * destruct (proj1 (Hin c) (or_intror Hc)) as [E|Hc']; [|assumption].
        subst c. specialize (Hall1 _ Hc). lia.
      * destruct (proj2 (Hin c) (or_intror Hc)) as [E|Hc']; [|assumption].
        subst c. specialize (Hall2 _ Hc). lia.
Qed.

Lemma unique_sorted_ext (ks ks' : list Z) :
  (forall a, In a ks <-> In a ks') -> unique_sorted ks = unique_sorted ks'.
Proof.
  intros H. apply sorted_lt_unique; try apply unique_sorted_sorted.
  intros a. rewrite !unique_sorted_In. apply H.
Qed.

Lemma sorted_perm_unique (key : Row -> Z) (l1 l2 : list Row) :
  StronglySorted (fun a b => key a < key b) l1 ->
  StronglySorted (fun a b => key a < key b) l2 ->
  Permutation l1 l2 -> l1 = l2.
Proof.
  intros H1. revert l2.
  induction H1 as [|a t1 Hs1 IH Hall1]; intros l2 H2 Hp.
  - now apply Permutation_nil in Hp.
  - destruct H2 as [|b t2 Hs2 Hall2].
    + symmetry in Hp. now apply Permutation_nil in Hp.
    + rewrite Forall_forall in Hall1, Hall2.
      assert (Hab : a = b).
      { assert (Ha : In a (b :: t2))
          by (apply (Permutation_in _ Hp); now left).
        assert (Hb : In b (a :: t1))
          by (apply (Permutation_in _ (Permutation_sym Hp)); now left).
        destruct Ha as [E|Ha]; [auto|]. destruct Hb as [E|Hb]; [auto|].
        specialize (Hall1 _ Hb). specialize (Hall2 _ Ha).
        cbv beta in *. lia. }
      subst b. f_equal. apply IH; [assumption|].
      now apply Permutation_cons_inv in Hp.
Qed.

(** *** Printing an identifier *)

Lemma str_injective (a b : Z) : str a = str b -> a = b.
Proof.
  unfold str. intros H.
  assert (Hnn : forall z, NilZero.int_of_string
                            (NilZero.string_of_int (Z.to_int z))
                          = Some (Z.to_int z)).
  { intros z. apply NilZero.isi; destruct z; simpl; try discriminate;
      intros E; injection E as E; now apply Unsigned.to_uint_nonnil in E. }
  apply (f_equal NilZero.int_of_string) in H. rewrite !Hnn in H.
  injection H as H. apply (f_equal Z.of_int) in H.
  now rewrite !DecimalZ.of_to in H.
Qed.

Lemma map_injective_NoDup {A B : Type} (f : A -> B) (l : list A) :
  (forall a b, f a = f b -> a = b) -> NoDup l -> NoDup (map f l).
Proof.
  intros Hinj. induction 1 as [|a l Hnotin Hnd IH]; cbn [map]; constructor.
  - intros Hin. apply in_map_iff in Hin. destruct Hin as (b & E & Hb).
    apply Hinj in E. now subst b.
  - exact IH.
Qed.

(** *** A frame without a coordinate column in the player loop *)

Lemma add_player_missing (df : DataFrame) (l : list Row) (p : Z)
  (acc : list (list (float * float)) * list strcell) :
  has_column df X = false \/ has_column df Y = false ->
  add_player (p, {| columns := columns df; rows := player_rows p l |}) acc
  = Raise (KeyError (if has_column df X then Y else X)).
Proof.
  intros H. unfold add_player, col, has_column in *. cbn [fst snd columns rows].
  destruct (existsb (column_beq X) (columns df)).
  - destruct H as [H|H]; [discriminate|]. rewrite H. reflexivity.
  - reflexivity.
Qed.

Lemma unique_sorted_nonempty (ks : list Z) :
  ks <> [] -> exists k rest, unique_sorted ks = k :: rest.
Proof.
  intros H. destruct ks as [|k0 ks]; [contradiction|].
  destruct (unique_sorted (k0 :: ks)) as [|k rest] eqn:E; [|eauto].
  exfalso. assert (Hin : In k0 (unique_sorted (k0 :: ks)))
    by (apply unique_sorted_In; now left).
  rewrite E in Hin. destruct Hin.
Qed.

(** *** Groups partition the rows *)

Lemma filter_split_perm {A : Type} (f : A -> bool) (l : list A) :
  Permutation (filter f l ++ filter (fun a => negb (f a)) l) l.
Proof.
  induction l as [|a l IH]; [constructor|].
  cbn [filter]. destruct (f a); cbn [negb app].
  - now constructor.
  - symmetry. apply Permutation_cons_app. now symmetry.
Qed.

Lemma player_rows_other (k p : Z) (l : list Row) :
  p <> k ->
  player_rows p (filter (fun r => negb (nflId r =? k)) l) = player_rows p l.
Proof.
  intros Hpk. unfold player_rows.
  induction l as [|r l IH]; [reflexivity|].
  cbn [filter]. destruct (Z.eqb_spec (nflId r) k) as [E|E]; cbn [negb filter].
  - destruct (Z.eqb_spec (nflId r) p); [congruence | exact IH].
  - destruct (nflId r =? p); [f_equal|]; exact IH.
Qed.

Lemma groups_partition (ks : list Z) :
  NoDup ks ->
  forall l : list Row,
  (forall r, In r l -> In (nflId r) ks) ->
  Permutation (flat_map (fun p => player_rows p l) ks) l.
Proof.
  induction 1 as [|k ks Hnotin Hnd IH]; intros l Hkeys.
  - destruct l as [|r l]; [constructor|].
    destruct (Hkeys r (or_introl eq_refl)).
  - cbn [flat_map].
    set (others := filter (fun r => negb (nflId r =? k)) l).
    rewrite (flat_map_ext_in _ (fun p => player_rows p others)).
    + rewrite (IH others).
      * apply filter_split_perm.
      * intros r Hr. apply filter_In in Hr. destruct Hr as [Hr Hne].
        destruct (Hkeys r Hr) as [E|Hin]; [|assumption].
        rewrite <- E, Z.eqb_refl in Hne. discriminate.
    + intros p Hp. symmetry. apply player_rows_other.
      intros ->. contradiction.
Qed.

Section AggregatorOutcomes.

Variable sort_rows : (Row -> Z) -> list Row -> list Row.
Hypothesis sort_rows_perm :
  forall key l, Permutation (sort_rows key l) l.

(** The aggregator once the three filter-and-sort columns are found. *)
Lemma aggregator_after_sort (df : DataFrame) (game_id play_id : Z) :
  has_column df GAME_ID = true ->
  has_column df PLAY_ID = true ->
  has_column df FRAME_ID = true ->
  let sorted := sort_rows frameId (selection df game_id play_id) in
  get_player_points_array sort_rows df game_id play_id =
  (ball_land <-
     (if landing_columns df
      then match sorted with
           | [] => Raise IndexError
           | first :: _ => Ok (landing_of first)
           end
      else Ok None) ;;
   groups <- groupby {| columns := columns df; rows := sorted |} NFL_ID nflId ;;
   acc <- for_in groups add_player ([], []) ;;
   ret (fst acc, snd acc, ball_land)).
Proof.
  intros HG HP HF sorted.
  unfold get_player_points_array, col, sort_values, landing_columns.
  unfold has_column in *. cbn [columns rows loc_mask].
  run_result. rewrite mask_selection. fold (selection df game_id play_id).
  fold sorted. clearbody sorted. unfold iloc.
  destruct (existsb (column_beq BALL_LAND_X) (columns df));
    destruct (existsb (column_beq BALL_LAND_Y) (columns df));
    cbn [andb]; run_result; try reflexivity.
  rewrite getitem_0.
  destruct sorted as [|first rest]; [reflexivity|].
  cbn [map]. run_result. rewrite getitem_0. run_result. reflexivity.
Qed.

Lemma sort_rows_nonempty (key : Row -> Z) (l : list Row) :
  l <> [] -> exists first rest, sort_rows key l = first :: rest /\ In first l.
Proof.
  intros Hl. destruct (sort_rows key l) as [|first rest] eqn:E.
  - exfalso. apply Hl. apply Permutation_nil. rewrite <- E.
    apply sort_rows_perm.
  - exists first, rest. split; [reflexivity|].
    apply (Permutation_in first (sort_rows_perm key l)). rewrite E. now left.
Qed.

(** X1.  A table that lacks one of the identifier columns makes the
    aggregator raise [KeyError] for the first column it fails to find, in
    the order game, play, frame, and then (once the landing point has been
    read) player.  With the first three in the schema, both landing columns
    and no selected row, the landing lookup fails first, with
    [IndexError], whether the player column is there or not. *)
Theorem missing_identifier_column (df : DataFrame) (game_id play_id : Z) :
  (has_column df GAME_ID = false ->
   get_player_points_array sort_rows df game_id play_id
   = Raise (KeyError GAME_ID)) /\
  (has_column df GAME_ID = true -> has_column df PLAY_ID = false ->
   get_player_points_array sort_rows df game_id play_id
   = Raise (KeyError PLAY_ID)) /\
  (has_column df GAME_ID = true -> has_column df PLAY_ID = true ->
   has_column df FRAME_ID = false ->
   get_player_points_array sort_rows df game_id play_id
   = Raise (KeyError FRAME_ID)) /\
  (has_column df GAME_ID = true -> has_column df PLAY_ID = true ->
   has_column df FRAME_ID = true -> has_column df NFL_ID = false ->
   landing_columns df = false \/ selection df game_id play_id <> [] ->
   get_player_points_array sort_rows df game_id play_id
   = Raise (KeyError NFL_ID)) /\
  (has_column df GAME_ID = true -> has_column df PLAY_ID = true ->
   has_column df FRAME_ID = true ->
   landing_columns df = true -> selection df game_id play_id = [] ->
   get_player_points_array sort_rows df game_id play_id = Raise IndexError).
Proof.
  split; [|split; [|split; [|split]]].
  - intros HG. unfold get_player_points_array, col. now rewrite HG.
  - intros HG HP. unfold get_player_points_array, col. now rewrite HG, HP.
  - intros HG HP HF.
    unfold get_player_points_array, col, sort_values.
    rewrite HG, HP. cbn [bind result_Monad].
    unfold has_column in *. cbn [columns loc_mask]. now rewrite HF.
  - intros HG HP HF HN Hcase.
    rewrite (aggregator_after_sort df game_id play_id HG HP HF). cbv zeta.
    unfold groupby, has_column in *. cbn [columns].
    destruct (landing_columns df).
    + destruct Hcase as [|Hsel]; [discriminate|].
      destruct (sort_rows_nonempty frameId _ Hsel) as (first & rest & -> & _).
      cbn [bind result_Monad]. now rewrite HN.
    + cbn [bind result_Monad]. now rewrite HN.
  - intros HG HP HF Hland Hsel.
    rewrite (aggregator_after_sort df game_id play_id HG HP HF). cbv zeta.
    rewrite Hland, Hsel, (sort_rows_nil sort_rows sort_rows_perm frameId).
    reflexivity.
Qed.

(** X2.  A table that has the four identifier columns but lacks a
    coordinate column is found out only in the player loop: with at least
    one selected row the aggregator raises [KeyError] for the coordinate
    column (x before y), while an empty selection without landing columns
    is answered with the empty result as if nothing were missing. *)
Theorem missing_coordinate_column (df : DataFrame) (game_id play_id : Z) :
  Forall (fun c => has_column df c = true) [GAME_ID; PLAY_ID; FRAME_ID; NFL_ID] ->
  has_column df X = false \/ has_column df Y = false ->
  (selection df game_id play_id <> [] ->
   get_player_points_array sort_rows df game_id play_id
   = Raise (KeyError (if has_column df X then Y else X))) /\
  (selection df game_id play_id = [] -> landing_columns df = false ->
   get_player_points_array sort_rows df game_id play_id = Ok ([], [], None)).
Proof.
  intros Hcols Hxy.
  repeat match goal with
         | H : Forall _ (_ :: _) |- _ => inversion H; clear H; subst
         end.
  rewrite (aggregator_after_sort df game_id play_id) by assumption. cbv zeta.
  unfold groupby. cbn [columns rows].
  replace (has_column {| columns := columns df;
                         rows := sort_rows frameId (selection df game_id play_id) |}
                      NFL_ID)
    with true by (symmetry; assumption).
  split.
  - intros Hsel.
    destruct (sort_rows_nonempty frameId _ Hsel) as (first & rest & E & _).
    rewrite E.
    destruct (unique_sorted_nonempty (map nflId (first :: rest)))
      as (k & ks & Ek); [discriminate|].
    rewrite Ek. cbn [map for_in].
    fold (player_rows k (first :: rest)).
    assert (Hstep : forall bl : option (float * float),
              (ball_land <- Ok bl ;;
               groups <- Ok ((k, {| columns := columns df;
                                    rows := player_rows k (first :: rest) |})
                             :: map (fun k0 =>
                                       (k0, {| columns := columns df;
                                               rows := filter (fun r => nflId r =? k0)
                                                              (first :: rest) |}))
                                    ks) ;;
               acc <- for_in groups add_player ([], []) ;;
               ret (fst acc, snd acc, ball_land))
              = Raise (KeyError (if has_column df X then Y else X))).
    { intros bl. cbn [bind ret result_Monad for_in].
      now rewrite (add_player_missing df (first :: rest) k ([], []) Hxy). }
    destruct (landing_columns df); apply Hstep.
  - intros Hsel ->. rewrite Hsel.
    assert (E : sort_rows frameId [] = [])
      by (apply Permutation_nil; symmetry; apply sort_rows_perm).
    rewrite E. reflexivity.
Qed.

End AggregatorOutcomes.

(** The aggregator sees a table only through the rows its play selection
    matches. *)
Lemma selection_idempotent (df : DataFrame) (game_id play_id : Z) :
  selection (play_frame df game_id play_id) game_id play_id
  = selection df game_id play_id.
Proof.
  unfold selection, play_frame. cbn [rows]. unfold selection.
  induction (rows df) as [|r l IH]; [reflexivity|].
  cbn [filter].
  destruct ((gameId r =? game_id) && (playId r =? play_id)) eqn:E;
    [cbn [filter]; rewrite E; f_equal|]; exact IH.
Qed.

(** X3.  Rows of other games and plays never influence the result: the
    aggregator gives the same outcome (the same value or the same
    exception) on a table and on the table cut down to the selected rows,
    whatever the sorter. *)
Theorem other_plays_ignored
  (sort_rows : (Row -> Z) -> list Row -> list Row)
  (df : DataFrame) (game_id play_id : Z) :
  get_player_points_array sort_rows df game_id play_id
  = get_player_points_array sort_rows (play_frame df game_id play_id)
      game_id play_id.
Proof.
  unfold get_player_points_array, col.
  change (has_column (play_frame df game_id play_id)) with (has_column df).
  destruct (has_column df GAME_ID); [|reflexivity].
  destruct (has_column df PLAY_ID); [|reflexivity].
  cbn [bind result_Monad].
  assert (E : loc_mask (play_frame df game_id play_id)
                (mask_and (series_eq (map gameId (rows (play_frame df game_id play_id)))
                                     game_id)
                          (series_eq (map playId (rows (play_frame df game_id play_id)))
                                     play_id))
              = loc_mask df
                  (mask_and (series_eq (map gameId (rows df)) game_id)
                            (series_eq (map playId (rows df)) play_id))).
  { unfold loc_mask. rewrite !mask_selection.
    fold (selection (play_frame df game_id play_id) game_id play_id).
    fold (selection df game_id play_id).
    now rewrite selection_idempotent. }
  rewrite E. reflexivity.
Qed.

Section AggregatorInvariants.

Variable sort_rows : (Row -> Z) -> list Row -> list Row.
Hypothesis sort_rows_perm :
  forall key l, Permutation (sort_rows key l) l.
Hypothesis sort_rows_sorted :
  forall key l, StronglySorted (fun a b => key a <= key b) (sort_rows key l).

Lemma players_of_sorted (l : list Row) :
  unique_sorted (map nflId (sort_rows frameId l)) = unique_sorted (map nflId l).
Proof.
  apply unique_sorted_ext. intros a.
  split; apply Permutation_in, Permutation_map;
    [|symmetry]; apply sort_rows_perm.
Qed.

(** X4.  The aggregator composes the Coordinate Extractor: whenever it
    returns, its i-th trajectory is what [extract_points] returns on the
    frame of the i-th player (ascending identifier) holding that player's
    selected rows in frame order. *)
Theorem trajectories_are_extract_points (df : DataFrame) (game_id play_id : Z) :
  tracking_table df ->
  selection df game_id play_id <> [] \/ landing_columns df = false ->
  exists points_array labels ball_land,
    get_player_points_array sort_rows df game_id play_id
      = Ok (points_array, labels, ball_land) /\
    Forall2
      (fun p points =>
         extract_points
           (player_group df p (sort_rows frameId (selection df game_id play_id)))
         = Ok points)
      (unique_sorted (map nflId (selection df game_id play_id)))
      points_array.
Proof.
  intros Htab Hcase.
  destruct (aggregator_returns sort_rows sort_rows_perm sort_rows_sorted
              df game_id play_id Htab Hcase) as (bl & Hrun).
  cbv zeta in Hrun. rewrite players_of_sorted in Hrun.
  do 3 eexists. split; [exact Hrun|].
  unfold tracking_table in Htab.
  assert (HX : has_column df X = true)
    by (rewrite Forall_forall in Htab; apply Htab; simpl; auto 10).
  assert (HY : has_column df Y = true)
    by (rewrite Forall_forall in Htab; apply Htab; simpl; auto 10).
  clear Hrun.
  induction (unique_sorted (map nflId (selection df game_id play_id)))
    as [|p ps IH]; cbn [map]; [constructor|].
  constructor; [|exact IH].
  unfold extract_points, col, player_group, has_column in *. cbn [columns rows].
  rewrite HX, HY. cbn [bind ret result_Monad]. now rewrite combine_map.
Qed.

(** X5.  Every selected row ends up in exactly one trajectory: whenever
    the aggregator returns, the points of all its trajectories together
    are the (x, y) pairs of the selected rows, each as often as it occurs;
    no row is dropped and none is used for two players. *)
Theorem trajectories_partition_selection (df : DataFrame) (game_id play_id : Z) :
  tracking_table df ->
  selection df game_id play_id <> [] \/ landing_columns df = false ->
  exists points_array labels ball_land,
    get_player_points_array sort_rows df game_id play_id
      = Ok (points_array, labels, ball_land) /\
    Permutation (List.concat points_array)
                (map (fun r => (xPos r, yPos r)) (selection df game_id play_id)) /\
    length (List.concat points_array) = length (selection df game_id play_id).
Proof.
  intros Htab Hcase.
  destruct (aggregator_returns sort_rows sort_rows_perm sort_rows_sorted
              df game_id play_id Htab Hcase) as (bl & Hrun).
  cbv zeta in Hrun.
  set (sorted := sort_rows frameId (selection df game_id play_id)) in *.
  do 3 eexists. split; [exact Hrun|].
  assert (Hperm : Permutation
            (List.concat (map (fun p => trajectory (player_rows p sorted))
                         (unique_sorted (map nflId sorted))))
            (map (fun r => (xPos r, yPos r)) (selection df game_id play_id))).
  { rewrite <- (map_map (fun p => player_rows p sorted) trajectory).
    unfold trajectory at 1. rewrite <- List.concat_map, <- flat_map_concat_map.
    apply Permutation_map.
    rewrite groups_partition.
    - apply sort_rows_perm.
    - apply sorted_lt_NoDup, unique_sorted_sorted.
    - intros r Hr. apply unique_sorted_In. now apply in_map. }
  split; [exact Hperm|].
  rewrite (Permutation_length Hperm). apply length_map.
Qed.

(** X6.  Without a name column the labels tell the players apart: they
    are "Player <id>" for the distinct identifiers in ascending order,
    and no two of them are equal. *)
Theorem synthesized_labels_distinct (df : DataFrame) (game_id play_id : Z) :
  tracking_table df ->
  has_column df PLAYER_NAME = false ->
  selection df game_id play_id <> [] \/ landing_columns df = false ->
  exists points_array labels ball_land,
    get_player_points_array sort_rows df game_id play_id
      = Ok (points_array, labels, ball_land) /\
    labels = map (fun p => Str ("Player " ++ str p)%string)
                 (unique_sorted (map nflId (selection df game_id play_id))) /\
    NoDup labels.
Proof.
  intros Htab Hname Hcase.
  destruct (aggregator_returns sort_rows sort_rows_perm sort_rows_sorted
              df game_id play_id Htab Hcase) as (bl & Hrun).
  cbv zeta in Hrun. rewrite players_of_sorted in Hrun.
  do 3 eexists. split; [exact Hrun|].
  assert (E : forall l,
            map (fun p => label_of df p
                     (player_rows p (sort_rows frameId (selection df game_id play_id)))) l
            = map (fun p => Str ("Player " ++ str p)%string) l).
  { intros l. apply map_ext. intros p. unfold label_of. now rewrite Hname. }
  rewrite E. split; [reflexivity|].
  apply map_injective_NoDup.
  - intros a b H. injection H as H. now apply str_injective.
  - apply sorted_lt_NoDup, unique_sorted_sorted.
Qed.

(** X7.  When the selected rows all carry the same landing coordinates,
    as the code assumes of a play, the landing point does not depend on
    which row comes first: it is what any selected row gives. *)
Theorem landing_point_of_any_row (df : DataFrame) (game_id play_id : Z) (r : Row) :
  tracking_table df ->
  landing_columns df = true ->
  (forall r1 r2,
     In r1 (selection df game_id play_id) ->
     In r2 (selection df game_id play_id) ->
     ballLandX r1 = ballLandX r2 /\ ballLandY r1 = ballLandY r2) ->
  In r (selection df game_id play_id) ->
  exists points_array labels,
    get_player_points_array sort_rows df game_id play_id
      = Ok (points_array, labels,
            if notna (ballLandX r) && notna (ballLandY r)
            then Some (ballLandX r, ballLandY r)
            else None).
Proof.
  intros Htab Hland Hsame Hr.
  rewrite (get_player_points_array_run sort_rows df game_id play_id Htab).
  cbv zeta. rewrite Hland.
  assert (Hsel : selection df game_id play_id <> [])
    by (intros E; rewrite E in Hr; destruct Hr).
  destruct (sort_rows_cons sort_rows sort_rows_perm sort_rows_sorted
              frameId _ Hsel) as (first & rest & -> & Hfirst & _).
  destruct (Hsame first r Hfirst Hr) as [Ex Ey].
  unfold landing_of. rewrite Ex, Ey. eauto.
Qed.

End AggregatorInvariants.

Section RowOrder.

Variable sort_a sort_b : (Row -> Z) -> list Row -> list Row.
Hypothesis sort_a_perm : forall key l, Permutation (sort_a key l) l.
Hypothesis sort_a_sorted :
  forall key l, StronglySorted (fun a b => key a <= key b) (sort_a key l).
Hypothesis sort_b_perm : forall key l, Permutation (sort_b key l) l.
Hypothesis sort_b_sorted :
  forall key l, StronglySorted (fun a b => key a <= key b) (sort_b key l).

(** A player's rows in frame order do not depend on the order the rows
    came in, nor on the sorter, when the player's frames are distinct. *)
Lemma player_rows_in_frame_order (l1 l2 : list Row) (p : Z) :
  Permutation l1 l2 ->
  NoDup (map frameId (player_rows p l1)) ->
  player_rows p (sort_a frameId l1) = player_rows p (sort_b frameId l2).
Proof.
  intros Hperm Hnd.
  assert (Ha : Permutation (player_rows p (sort_a frameId l1)) (player_rows p l1))
    by apply filter_perm, sort_a_perm.
  assert (Hb : Permutation (player_rows p (sort_b frameId l2)) (player_rows p l1)).
  { transitivity (player_rows p l2).
    - apply filter_perm, sort_b_perm.
    - apply filter_perm. now symmetry. }
  apply (sorted_perm_unique frameId).
  - apply sorted_strict; [apply filter_sorted, sort_a_sorted|].
    apply (Permutation_NoDup (l := map frameId (player_rows p l1)));
      [|assumption].
    apply Permutation_map. now symmetry.
  - apply sorted_strict; [apply filter_sorted, sort_b_sorted|].
    apply (Permutation_NoDup (l := map frameId (player_rows p l1)));
      [|assumption].
    apply Permutation_map. now symmetry.
  - now rewrite Ha, Hb.
Qed.

(** X8.  The order of the rows in the table does not matter, nor does the
    way the sort breaks ties: two tables with the same schema and the same
    rows in any order, sorted by any two sorters, give the same
    trajectories and the same labels, provided no selected player has two
    rows with the same frame identifier. *)
Theorem row_order_irrelevant (df1 df2 : DataFrame) (game_id play_id : Z) :
  tracking_table df1 ->
  columns df2 = columns df1 ->
  Permutation (rows df1) (rows df2) ->
  (forall p, NoDup (map frameId (player_rows p (selection df1 game_id play_id)))) ->
  selection df1 game_id play_id <> [] \/ landing_columns df1 = false ->
  exists points_array labels ball_land1 ball_land2,
    get_player_points_array sort_a df1 game_id play_id
      = Ok (points_array, labels, ball_land1) /\
    get_player_points_array sort_b df2 game_id play_id
      = Ok (points_array, labels, ball_land2).
Proof.
  intros Htab Hcols Hrows Hframes Hcase.
  assert (Hhas : forall c, has_column df2 c = has_column df1 c)
    by (intros c; unfold has_column; now rewrite Hcols).
  assert (Htab2 : tracking_table df2).
  { unfold tracking_table in *. rewrite Forall_forall in *.
    intros c Hc. rewrite Hhas. now apply Htab. }
  assert (Hsel : Permutation (selection df1 game_id play_id)
                             (selection df2 game_id play_id))
    by now apply filter_perm.
  assert (Hcase2 : selection df2 game_id play_id <> []
                   \/ landing_columns df2 = false).
  { destruct Hcase as [Hne|Hland].
    - left. intros E. apply Hne. rewrite E in Hsel.
      now apply Permutation_nil, Permutation_sym.
    - right. unfold landing_columns in *. now rewrite !Hhas. }
  destruct (aggregator_returns sort_a sort_a_perm sort_a_sorted
              df1 game_id play_id Htab Hcase) as (bl1 & Hrun1).
  destruct (aggregator_returns sort_b sort_b_perm sort_b_sorted
              df2 game_id play_id Htab2 Hcase2) as (bl2 & Hrun2).
  cbv zeta in Hrun1, Hrun2.
  assert (Hplayers :
    unique_sorted (map nflId (sort_b frameId (selection df2 game_id play_id)))
    = unique_sorted (map nflId (sort_a frameId (selection df1 game_id play_id)))).
  { apply unique_sorted_ext. intros a.
    split; apply Permutation_in, Permutation_map.
    - rewrite sort_b_perm, sort_a_perm. now symmetry.
    - rewrite sort_b_perm, sort_a_perm. assumption. }
  rewrite Hplayers in Hrun2.
  assert (Hgroup : forall p,
    player_rows p (sort_b frameId (selection df2 game_id play_id))
    = player_rows p (sort_a frameId (selection df1 game_id play_id))).
  { intros p. symmetry. apply player_rows_in_frame_order; auto. }
  rewrite (map_ext _ (fun p => trajectory
             (player_rows p (sort_a frameId (selection df1 game_id play_id)))))
    in Hrun2 by (intros p; now rewrite Hgroup).
  rewrite (map_ext
             (fun p => label_of df2 p
                (player_rows p (sort_b frameId (selection df2 game_id play_id))))
             (fun p => label_of df1 p
                (player_rows p (sort_a frameId (selection df1 game_id play_id)))))
    in Hrun2 by (intros p; unfold label_of; now rewrite Hgroup, Hhas).
  eauto 10.
Qed.

End RowOrder.

(* ================================================================== *)
(** ** Role Filter: the mask as a row filter *)

Lemma mask_filter {A : Type} (g : A -> bool) (l : list A) :
  map fst (filter snd (combine l (map g l))) = filter g l.
Proof.
  induction l as [|a l IH]; [reflexivity|].
  cbn [map combine filter snd]. destruct (g a); cbn [map fst]; now rewrite IH.
Qed.

Lemma filter_idempotent {A : Type} (g : A -> bool) (l : list A) :
  filter g (filter g l) = filter g l.
Proof.
  induction l as [|a l IH]; [reflexivity|].
  cbn [filter]. destruct (g a) eqn:E; [cbn [filter]; rewrite E; f_equal|]; exact IH.
Qed.

Lemma offensive_roles (role : strcell) :
  offensive role = true <->
  role = Str "Other Route Runner" \/ role = Str "Passer" \/
  role = Str "Targeted Receiver".
Proof.
  unfold offensive, is_offensive_player, isin. cbn [map nth].
  destruct role as [v|].
  - cbn [existsb]. rewrite !orb_true_iff, !String.eqb_eq. split.
    + intros [->|[->|[->|H]]]; [auto | auto | auto | discriminate].
    + intros [H|[H|H]]; injection H as ->; auto.
  - split; [discriminate|]. intros [H|[H|H]]; discriminate.
Qed.

(** X9.  Used as a row mask on a table with a role column, the Role
    Filter keeps exactly the rows whose role is one of the three offensive
    roles, in table order and with the schema unchanged; rows without a
    role are dropped; filtering the result again changes nothing. *)
Theorem offensive_frame_rows (df : DataFrame) :
  has_column df PLAYER_ROLE = true ->
  exists off,
    offensive_frame df = Ok off /\
    columns off = columns df /\
    rows off = filter (fun r => offensive (playerRole r)) (rows df) /\
    (forall r, In r (rows off) <->
       In r (rows df) /\
       (playerRole r = Str "Other Route Runner" \/ playerRole r = Str "Passer" \/
        playerRole r = Str "Targeted Receiver")) /\
    offensive_frame off = Ok off.
Proof.
  intros Hrole.
  assert (Hmask : forall l,
            is_offensive_player (map playerRole l)
            = map (fun r => offensive (playerRole r)) l).
  { intros l. unfold is_offensive_player, isin. rewrite map_map. reflexivity. }
  unfold offensive_frame, col. rewrite Hrole. cbn [bind ret result_Monad].
  eexists. split; [reflexivity|].
  unfold loc_mask. cbn [columns rows]. rewrite Hmask, mask_filter.
  split; [reflexivity|]. split; [reflexivity|]. split.
  - intros r. rewrite filter_In, offensive_roles. reflexivity.
  - unfold has_column in *. cbn [columns]. rewrite Hrole.
    cbn [bind ret result_Monad rows]. rewrite Hmask, mask_filter.
    now rewrite filter_idempotent.
Qed.

(* ================================================================== *)
(** ** Field Renderer (multi-trajectory): labels, colours, marker, title *)

Lemma label_lookup (labels : option (list strcell)) (i : Z) :
  0 <= i ->
  match labels with
  | Some ls =>
      if negb (len ls =? 0) && (i <? len ls)
      then getitem ls i
      else ret (Str ("Player " ++ str (i + 1))%string)
  | None => ret (Str ("Player " ++ str (i + 1))%string)
  end = Ok (label_at labels i).
Proof.
  intros Hi. unfold label_at. destruct labels as [ls|]; [|reflexivity].
  destruct (Z.eqb_spec (len ls) 0) as [E0|E0]; cbn [negb andb].
  - assert (E : nth_error ls (Z.to_nat i) = None)
      by (apply nth_error_None; unfold len in E0; lia).
    now rewrite E.
  - destruct (Z.ltb_spec i (len ls)) as [Hlt|Hge].
    + destruct (getitem_ok ls i) as (a & -> & ->); [lia | reflexivity].
    + assert (E : nth_error ls (Z.to_nat i) = None)
        by (apply nth_error_None; unfold len in Hge; lia).
      now rewrite E.
Qed.

(** One iteration of the trajectory loop, call by call. *)
Lemma plot_trajectory_calls (colors : list rgb) (labels : option (list strcell))
  (i : Z) (points : list (float * float)) (c : rgb) :
  0 <= i -> getitem colors i = Ok c ->
  pick trajectory_line (fst (plot_trajectory colors labels (i, points) tt))
    = [(map fst points, map snd points, c, label_at labels i)] /\
  pick arrow_colors (fst (plot_trajectory colors labels (i, points) tt))
    = map (fun _ => (c, c)) (final_segment points) /\
  Forall (fun k => trajectory_line k <> None \/ arrow_geometry k <> None)
         (fst (plot_trajectory colors labels (i, points) tt)).
Proof.
  intros Hi Hc. unfold plot_trajectory. cbn [fst snd].
  rewrite (label_lookup labels i Hi), Hc.
  destruct (Z.leb_spec 2 (len points)) as [Hlen|Hlen].
  - destruct (two_last points) as (pre & a & b & ->); [unfold len in Hlen; lia|].
    rewrite final_segment_two, !map_app. cbn [map].
    cbn [bind plt_Monad lift emit fst snd app].
    rewrite !getitem_last, !getitem_prev.
    cbn [bind plt_Monad lift emit fst snd app].
    split; [reflexivity|]. split; [reflexivity|].
    constructor; [left; discriminate|].
    constructor; [right; discriminate | constructor].
  - rewrite final_segment_short by (unfold len in Hlen; lia).
    cbn [bind plt_Monad lift emit fst snd app ret].
    split; [reflexivity|]. split; [reflexivity|].
    constructor; [left; discriminate | constructor].
Qed.

Lemma pick_none {A B : Type} (f : A -> option B) (l : list A) :
  Forall (fun a => f a = None) l -> pick f l = [].
Proof.
  induction 1 as [|a l Ha _ IH]; [reflexivity|]. now rewrite pick_skip.
Qed.

Lemma pick_step {A B : Type} (f : A -> option B) (a : A) (l : list A) :
  pick f (a :: l) = match f a with Some b => [b] | None => [] end ++ pick f l.
Proof. reflexivity. Qed.

Section MultiRendererMore.

Variable points_array : list (list (float * float)).
Variable ball_land : option (float * float).
Variable game_id play_id : option Z.
Variable labels : option (list strcell).

(** What an iteration at a valid index issues, call by call. *)
Lemma plot_trajectory_calls_in (ip : Z * list (float * float)) :
  In ip (enumerate points_array) ->
  exists c,
    clamped_color (fst ip) = Some c /\
    pick trajectory_line
      (fst (plot_trajectory (tab10 (range (len points_array))) labels ip tt))
      = [(map fst (snd ip), map snd (snd ip), c, label_at labels (fst ip))] /\
    pick arrow_colors
      (fst (plot_trajectory (tab10 (range (len points_array))) labels ip tt))
      = map (fun _ => (c, c)) (final_segment (snd ip)) /\
    Forall (fun k => trajectory_line k <> None \/ arrow_geometry k <> None)
      (fst (plot_trajectory (tab10 (range (len points_array))) labels ip tt)).
Proof.
  destruct ip as [i points]. intros Hin. apply enumerate_In in Hin.
  destruct (tab10_getitem (len points_array) i Hin) as (c & Hcol & Hc).
  exists c. split; [assumption|].
  apply (plot_trajectory_calls _ labels i points c); [lia | assumption].
Qed.

(** An observation that is blind to trajectory lines and arrows picks
    from the trace what it picks when there is no trajectory at all. *)
Lemma pick_outside_loop {B : Type} (f : call -> option B) :
  (forall c, trajectory_line c <> None \/ arrow_geometry c <> None ->
             f c = None) ->
  pick f (fst (plot_multiple_points points_array ball_land game_id play_id labels))
  = pick f (fst (plot_multiple_points [] ball_land game_id play_id labels)).
Proof.
  intros Hf.
  assert (Hloop :
    pick f (flat_map
              (fun ip => fst (plot_trajectory (tab10 (range (len points_array)))
                                labels ip tt))
              (enumerate points_array)) = []).
  { apply pick_none, Forall_forall. intros c Hc.
    apply in_flat_map in Hc. destruct Hc as (ip & Hip & Hc).
    destruct (plot_trajectory_calls_in ip Hip) as (k & _ & _ & _ & Hall).
    rewrite Forall_forall in Hall. auto. }
  unfold plot_multiple_points. cbv zeta.
  destruct ball_land;
    repeat first
      [ rewrite fst_bind_emit; cbv beta; rewrite pick_step
      | rewrite (fst_bind_ok _ _ _ tt (for_in_emit _ _)); cbv beta;
        rewrite pick_app
      | rewrite (fst_bind_ok _ _ _ tt (trajectory_loop _ _)); cbv beta;
        rewrite pick_app
      | rewrite fst_bind_ret; cbv beta ];
    rewrite Hloop; reflexivity.
Qed.

End MultiRendererMore.

(** *** The shape of the calls of the trajectory loop *)

Lemma line_or_arrow_shape (c : call) :
  trajectory_line c <> None \/ arrow_geometry c <> None ->
  exists fn a1 a2 a3 rest kwargs,
    c = Call fn (a1 :: a2 :: a3 :: rest) kwargs /\
    ((exists v, a1 = Num v) \/ (exists vs, a1 = Nums vs)).
Proof.
  destruct c as [fn args kwargs].
  destruct args as [|a1 r1]; [intros [H|H]; exfalso; apply H; reflexivity|].
  destruct a1; try (intros [H|H]; exfalso; apply H; reflexivity).
  - (* a number first: only an arrow *)
    destruct r1 as [|a2 r2]; [intros [H|H]; exfalso; apply H; reflexivity|].
    destruct r2 as [|a3 r3].
    + destruct a2; intros [H|H]; exfalso; apply H; reflexivity.
    + intros _. exists fn, (Num v), a2, a3, r3, kwargs. eauto.
  - (* a list of numbers first: only a line *)
    destruct r1 as [|a2 r2]; [intros [H|H]; exfalso; apply H; reflexivity|].
    destruct r2 as [|a3 r3].
    + destruct a2; intros [H|H]; exfalso; apply H; reflexivity.
    + intros _. exists fn, (Nums vs), a2, a3, r3, kwargs. eauto.
Qed.

Lemma landing_marker_outside (c : call) :
  trajectory_line c <> None \/ arrow_geometry c <> None ->
  landing_marker c = None.
Proof.
  intros H. apply line_or_arrow_shape in H.
  destruct H as (fn & a1 & a2 & a3 & rest & kwargs & -> & [[v ->]|[vs ->]]);
    [destruct a2|]; reflexivity.
Qed.

Lemma title_text_outside (c : call) :
  trajectory_line c <> None \/ arrow_geometry c <> None ->
  title_text c = None.
Proof.
  intros H. apply line_or_arrow_shape in H.
  destruct H as (fn & a1 & a2 & a3 & rest & kwargs & -> & [[v ->]|[vs ->]]);
    reflexivity.
Qed.

Lemma arrow_colors_inside (c : call) :
  trajectory_line c = None -> arrow_geometry c = None -> arrow_colors c = None.
Proof.
  intros _. destruct c as [fn args kwargs].
  destruct args as [|a1 r1]; [reflexivity|].
  destruct a1; try reflexivity.
  destruct r1 as [|a2 r2]; [reflexivity|]. destruct a2; try reflexivity.
  destruct r2 as [|a3 r3]; [reflexivity|]. destruct a3; try reflexivity.
  destruct r3 as [|a4 r4]; [reflexivity|]. destruct a4; try reflexivity.
  destruct r4; [|reflexivity].
  cbn [arrow_geometry arrow_colors].
  destruct (fn =? "ax.arrow")%string; [discriminate | reflexivity].
Qed.

Lemma pick_option_map {A B C : Type} (f : A -> option B) (g : B -> C)
  (l : list A) :
  pick (fun a => option_map g (f a)) l = map g (pick f l).
Proof.
  induction l as [|a l IH]; [reflexivity|].
  rewrite !pick_step, IH, map_app. now destruct (f a).
Qed.

(** X10.  The landing marker is drawn exactly when a landing point is
    passed, once, at its coordinates; the trajectories play no part. *)
Theorem landing_marker_drawn
  (points_array : list (list (float * float)))
  (ball_land : option (float * float)) (game_id play_id : option Z)
  (labels : option (list strcell)) :
  pick landing_marker
    (fst (plot_multiple_points points_array ball_land game_id play_id labels))
  = match ball_land with Some landing => [landing] | None => [] end.
Proof.
  rewrite pick_outside_loop by apply landing_marker_outside.
  destruct ball_land as [[x y]|]; reflexivity.
Qed.

Lemma line_labels_at
  (points_array : list (list (float * float)))
  (ball_land : option (float * float)) (game_id play_id : option Z)
  (labels : option (list strcell)) :
  pick line_label
    (fst (plot_multiple_points points_array ball_land game_id play_id labels))
  = map (label_at labels) (range (len points_array)).
Proof.
  rewrite pick_trajectory_loop
    by (unfold line_label; intros c -> _; reflexivity).
  rewrite (flat_map_ext_in _ (fun ip => [label_at labels (fst ip)])).
  - rewrite (flat_map_enumerate_fst (fun i => [label_at labels i])).
    apply flat_map_singleton.
  - intros ip Hin.
    destruct (plot_trajectory_calls_in points_array labels ip Hin)
      as (c & _ & Hline & _).
    unfold line_label. rewrite pick_option_map, Hline. reflexivity.
Qed.

(** X11.  The line of the trajectory at index [i] carries the [i]-th
    given label when [labels] is passed and has an entry at [i], and
    "Player <i+1>" otherwise: with no labels, with an empty list, and
    past the end of a list that is too short.  Labels beyond the number
    of trajectories are not used. *)
Theorem labels_of_lines
  (points_array : list (list (float * float)))
  (ball_land : option (float * float)) (game_id play_id : option Z)
  (labels : option (list strcell)) :
  pick line_label
    (fst (plot_multiple_points points_array ball_land game_id play_id labels))
  = map (label_at labels) (range (len points_array)) /\
  (forall i, 0 <= i < len points_array ->
     label_at labels i
     = match labels with
       | Some given =>
           if i <? len given
           then nth (Z.to_nat i) given NA
           else Str ("Player " ++ str (i + 1))%string
       | None => Str ("Player " ++ str (i + 1))%string
       end).
Proof.
  split; [apply line_labels_at|].
  intros i Hi. unfold label_at. destruct labels as [given|]; [|reflexivity].
  destruct (Z.ltb_spec i (len given)) as [Hlt|Hge].
  - rewrite (nth_error_nth' given NA) by (unfold len in Hlt; lia). reflexivity.
  - assert (E : nth_error given (Z.to_nat i) = None)
      by (apply nth_error_None; unfold len in Hge; lia).
    now rewrite E.
Qed.

(** X12.  Every arrow is filled and edged in the colour of the line of
    its own trajectory. *)
Theorem arrows_match_lines
  (points_array : list (list (float * float)))
  (ball_land : option (float * float)) (game_id play_id : option Z)
  (labels : option (list strcell)) :
  let trace :=
    fst (plot_multiple_points points_array ball_land game_id play_id labels) in
  pick arrow_colors trace
  = flat_map (fun line => map (fun _ => (snd line, snd line))
                              (final_segment (fst line)))
             (combine points_array (pick line_color trace)).
Proof.
  cbv zeta.
  assert (Hlines :
    combine points_array
      (pick line_color
         (fst (plot_multiple_points points_array ball_land game_id play_id labels)))
    = flat_map (fun ip => match clamped_color (fst ip) with
                          | Some c => [(snd ip, c)]
                          | None => []
                          end)
               (enumerate points_array)).
  { rewrite plot_multiple_points_colors.
    rewrite <- (enumerate_snd points_array) at 1.
    rewrite <- (enumerate_fst points_array).
    assert (Hall : Forall (fun ip => clamped_color (fst ip) <> None)
                          (enumerate points_array)).
    { apply Forall_forall. intros ip Hin.
      destruct (plot_trajectory_calls_in points_array labels ip Hin)
        as (c & -> & _). discriminate. }
    induction Hall as [|ip l Hip _ IH]; [reflexivity|].
    cbn [map pick flat_map].
    destruct (clamped_color (fst ip)); [|contradiction].
    cbn [app combine]. f_equal. exact IH. }
  rewrite Hlines, pick_trajectory_loop by apply arrow_colors_inside.
  rewrite flat_map_concat_map, (flat_map_concat_map _ (flat_map _ _)).
  f_equal.
  rewrite flat_map_concat_map, concat_map, map_map.
  rewrite <- flat_map_concat_map.
  rewrite <- (flat_map_singleton
                (fun ip => pick arrow_colors
                   (fst (plot_trajectory (tab10 (range (len points_array)))
                           labels ip tt)))).
  apply flat_map_ext_in. intros ip Hin.
  destruct (plot_trajectory_calls_in points_array labels ip Hin)
    as (c & -> & _ & -> & _).
  reflexivity.
Qed.

(* ================================================================== *)
(** ** Field Renderer (single-trajectory): markers and title *)

(** The last element by negative index. *)
Lemma getitem_minus_one {A : Type} (l : list A) (d : A) :
  l <> [] -> getitem l (-1) = Ok (last l d).
Proof.
  intros Hne. destruct (exists_last Hne) as (front & final & ->).
  now rewrite getitem_end, last_last.
Qed.

Lemma last_map {A B : Type} (f : A -> B) (l : list A) (d : A) :
  last (map f l) (f d) = f (last l d).
Proof.
  induction l as [|a l IH]; [reflexivity|].
  cbn [map last]. destruct l as [|b l']; [reflexivity | exact IH].
Qed.

Lemma last_cons_default {A : Type} (a : A) (l : list A) :
  last (a :: l) a = last l a.
Proof. destruct l; reflexivity. Qed.

(** The single renderer on a trajectory with a first point: the calls
    before the markers, the two markers, the calls after them. *)
Lemma plot_single_trajectory_picks
  (first : float * float) (rest : list (float * float))
  (game_id play_id : option Z) :
  exists before markers after,
    fst (plot_single_trajectory (first :: rest) game_id play_id)
    = before ++ markers ++ after /\
    pick point_marker before = [] /\ pick title_text before = [] /\
    pick point_marker markers
      = [("go", "Start", first); ("ro", "End", last rest first)] /\
    pick title_text markers = [] /\
    pick point_marker after = [] /\
    pick title_text after = [title_of "Player Trajectory" game_id play_id].
Proof.
  assert (Hx : getitem (map fst (first :: rest)) (-1)
               = Ok (fst (last rest first))).
  { rewrite (getitem_minus_one _ (fst first)) by discriminate.
    now rewrite last_map, last_cons_default. }
  assert (Hy : getitem (map snd (first :: rest)) (-1)
               = Ok (snd (last rest first))).
  { rewrite (getitem_minus_one _ (snd first)) by discriminate.
    now rewrite last_map, last_cons_default. }
  unfold plot_single_trajectory. cbv zeta.
  rewrite Hx, Hy. cbn [map]. rewrite !getitem_0.
  cbn [bind plt_Monad lift emit fst snd app].
  destruct first as [x0 y0]. destruct (last rest (x0, y0)) as [x1 y1].
  cbn [fst snd].
  eexists [_; _; _; _], [_; _], [_; _; _; _; _; _; _].
  split; [reflexivity|].
  repeat (split; [reflexivity|]).
  destruct game_id as [g|], play_id as [p|]; reflexivity.
Qed.

(** X13.  On a trajectory with at least one point the single renderer
    marks the first point "Start" (green) and the last point "End" (red),
    in that order and nothing else; for a single point both markers are
    at that point. *)
Theorem start_and_end_markers
  (first : float * float) (rest : list (float * float))
  (game_id play_id : option Z) :
  pick point_marker
    (fst (plot_single_trajectory (first :: rest) game_id play_id))
  = [("go", "Start", first); ("ro", "End", last rest first)] /\
  (rest = [] ->
   pick point_marker
     (fst (plot_single_trajectory (first :: rest) game_id play_id))
   = [("go", "Start", first); ("ro", "End", first)]).
Proof.
  destruct (plot_single_trajectory_picks first rest game_id play_id)
    as (before & markers & after & -> & Hb & _ & Hm & _ & Ha & _).
  rewrite !pick_app, Hb, Hm, Ha.
  split; [reflexivity|]. intros ->. reflexivity.
Qed.

(** X14.  The multi renderer always sets exactly one title.  The single
    renderer sets exactly one title on a trajectory with at least one
    point, and none on the empty trajectory, where it raises [IndexError]
    at the "Start" marker before the title call.  The title is
    "Game: <game>, Play: <play>" when both identifiers are passed and
    neither is zero, and the renderer's generic title otherwise; an
    identifier 0 counts as not passed. *)
Theorem title_shown
  (points_array : list (list (float * float)))
  (ball_land : option (float * float)) (game_id play_id : option Z)
  (labels : option (list strcell))
  (points : list (float * float)) :
  pick title_text
    (fst (plot_multiple_points points_array ball_land game_id play_id labels))
  = [title_of "Player Trajectories" game_id play_id] /\
  pick title_text (fst (plot_single_trajectory points game_id play_id))
  = match points with
    | [] => []
    | _ :: _ => [title_of "Player Trajectory" game_id play_id]
    end /\
  (points = [] ->
   snd (plot_single_trajectory points game_id play_id) = Raise IndexError) /\
  (forall generic g p, g <> 0 -> p <> 0 ->
     title_of generic (Some g) (Some p)
     = ("Game: " ++ str g ++ ", Play: " ++ str p)%string) /\
  (forall generic,
     title_of generic (Some 0) play_id = generic /\
     title_of generic game_id (Some 0) = generic /\
     title_of generic None play_id = generic /\
     title_of generic game_id None = generic).
Proof.
  split; [|split; [|split; [|split]]].
  - rewrite pick_outside_loop by apply title_text_outside.
    destruct ball_land, game_id, play_id; reflexivity.
  - destruct points as [|first rest]; [reflexivity|].
    destruct (plot_single_trajectory_picks first rest game_id play_id)
      as (before & markers & after & -> & _ & Hb & _ & Hm & _ & Ha).
    now rewrite !pick_app, Hb, Hm, Ha.
  - intros ->. reflexivity.
  - intros generic g p Hg Hp. unfold title_of.
    apply Z.eqb_neq in Hg. apply Z.eqb_neq in Hp. now rewrite Hg, Hp.
  - intros generic. unfold title_of. split; [now destruct play_id|].
    split.
    + destruct game_id as [g|]; [|reflexivity].
      cbn [Z.eqb negb]. now rewrite andb_false_r.
    + split; [reflexivity | now destruct game_id].
Qed.

(* ================================================================== *)
(** ** Field Renderer (multi-trajectory): distinct colours *)

Lemma tab10_lut_NoDup : NoDup tab10_lut.
Proof.
  unfold tab10_lut.
  repeat (constructor;
          [ cbn [In]; intros H;
            repeat (destruct H as [H|H]; [discriminate H|]); exact H | ]).
  constructor.
Qed.

Lemma firstn_NoDup {A : Type} (n : nat) (l : list A) :
  NoDup l -> NoDup (firstn n l).
Proof.
  intros H. rewrite <- (firstn_skipn n l) in H.
  now apply NoDup_app_remove_r in H.
Qed.

(** The colours of the lines, in order. *)
Lemma line_colors_clamped
  (points_array : list (list (float * float)))
  (ball_land : option (float * float)) (game_id play_id : option Z)
  (labels : option (list strcell)) :
  pick line_color
    (fst (plot_multiple_points points_array ball_land game_id play_id labels))
  = map (fun k => nth (Nat.min k 9) tab10_lut (0, 0, 0))
        (seq 0 (length points_array)).
Proof.
  rewrite plot_multiple_points_colors. unfold pick, range, len.
  rewrite Nat2Z.id, flat_map_concat_map, map_map, <- flat_map_concat_map.
  rewrite <- flat_map_singleton. apply flat_map_ext_in.
  intros k Hk. unfold clamped_color. change (len tab10_lut - 1) with 9.
  replace (Z.to_nat (Z.min (Z.of_nat k) 9)) with (Nat.min k 9) by lia.
  rewrite (nth_error_nth' tab10_lut (0, 0, 0)); [reflexivity|].
  change (length tab10_lut) with 10%nat. lia.
Qed.

(** X15.  The lines are drawn in pairwise distinct colours exactly when
    there are at most ten trajectories; from the eleventh on, every line
    repeats the colour of the tenth. *)
Theorem colors_distinct_up_to_ten
  (points_array : list (list (float * float)))
  (ball_land : option (float * float)) (game_id play_id : option Z)
  (labels : option (list strcell)) :
  let colors :=
    pick line_color
      (fst (plot_multiple_points points_array ball_land game_id play_id labels)) in
  (NoDup colors <-> (length points_array <= 10)%nat) /\
  (forall k, (10 <= k < length points_array)%nat ->
             nth_error colors k = nth_error colors 9).
Proof.
  cbv zeta. rewrite line_colors_clamped.
  set (n := length points_array).
  assert (Hnth : forall k, (k < n)%nat ->
            nth_error (map (fun k => nth (Nat.min k 9) tab10_lut (0, 0, 0))
                           (seq 0 n)) k
            = Some (nth (Nat.min k 9) tab10_lut (0, 0, 0))).
  { intros k Hk. rewrite nth_error_map.
    rewrite (nth_error_nth' _ 0%nat) by (rewrite length_seq; lia).
    now rewrite seq_nth by lia. }
  split; [split|].
  - intros Hnd. destruct (Nat.le_gt_cases n 10) as [|Hgt]; [assumption|].
    exfalso. rewrite NoDup_nth_error in Hnd.
    assert (E : 9%nat = 10%nat).
    { apply Hnd; [rewrite length_map, length_seq; lia|].
      rewrite !Hnth by lia. reflexivity. }
    discriminate E.
  - intros Hle.
    assert (E : map (fun k => nth (Nat.min k 9) tab10_lut (0, 0, 0)) (seq 0 n)
                = firstn n tab10_lut).
    { do 11 (destruct n as [|n]; [reflexivity|]). lia. }
    rewrite E. apply firstn_NoDup, tab10_lut_NoDup.
  - intros k Hk. rewrite !Hnth by lia.
    replace (Nat.min k 9) with 9%nat by lia. reflexivity.
Qed.

(* ================================================================== *)
(** ** From the aggregator to the renderer *)

Lemma label_at_given (ls : list strcell) :
  map (label_at (Some ls)) (range (len ls)) = ls.
Proof.
  unfold range, len. rewrite Nat2Z.id, map_map.
  induction ls as [|a ls IH]; [reflexivity|].
  cbn [length seq map]. f_equal.
  rewrite <- seq_shift, map_map. rewrite <- IH at 2.
  apply map_ext_in. intros k Hk. apply in_seq in Hk.
  unfold label_at. rewrite !Nat2Z.id. cbn [nth_error].
  destruct (nth_error ls k) eqn:E; [reflexivity|].
  apply nth_error_None in E. lia.
Qed.

Section Pipeline.

Variable sort_rows : (Row -> Z) -> list Row -> list Row.
Hypothesis sort_rows_perm :
  forall key l, Permutation (sort_rows key l) l.
Hypothesis sort_rows_sorted :
  forall key l, StronglySorted (fun a b => key a <= key b) (sort_rows key l).

(** X16.  The pipeline of the docstring, aggregate a play and plot the
    result: whenever the aggregator returns, the renderer completes on its
    three outputs and draws one line per player, with that player's
    coordinates and the aggregator's label for that player (no label is
    synthesized by the renderer), and the landing marker exactly when the
    aggregator found a landing point. *)
Theorem aggregate_then_plot (df : DataFrame) (game_id play_id : Z) :
  tracking_table df ->
  selection df game_id play_id <> [] \/ landing_columns df = false ->
  exists points_array labels ball_land,
    get_player_points_array sort_rows df game_id play_id
      = Ok (points_array, labels, ball_land) /\
    length labels = length points_array /\
    snd (plot_multiple_points points_array ball_land
           (Some game_id) (Some play_id) (Some labels)) = Ok tt /\
    pick line_label
      (fst (plot_multiple_points points_array ball_land
              (Some game_id) (Some play_id) (Some labels))) = labels /\
    pick line_coords
      (fst (plot_multiple_points points_array ball_land
              (Some game_id) (Some play_id) (Some labels)))
      = map (fun points => (map fst points, map snd points)) points_array /\
    pick landing_marker
      (fst (plot_multiple_points points_array ball_land
              (Some game_id) (Some play_id) (Some labels)))
      = match ball_land with Some landing => [landing] | None => [] end.
Proof.
  intros Htab Hcase.
  destruct (aggregator_returns sort_rows sort_rows_perm sort_rows_sorted
              df game_id play_id Htab Hcase) as (bl & Hrun).
  cbv zeta in Hrun.
  do 3 eexists. split; [exact Hrun|].
  split; [now rewrite !length_map|].
  split; [apply plot_multiple_points_completes|].
  split.
  - rewrite line_labels_at.
    replace (len (map (fun p => trajectory
                (player_rows p (sort_rows frameId (selection df game_id play_id))))
                (unique_sorted
                   (map nflId (sort_rows frameId (selection df game_id play_id))))))
      with (len (map (fun p => label_of df p
                (player_rows p (sort_rows frameId (selection df game_id play_id))))
                (unique_sorted
                   (map nflId (sort_rows frameId (selection df game_id play_id))))))
      by (unfold len; now rewrite !length_map).
    apply label_at_given.
  - split; [apply plot_multiple_points_lines|].
    rewrite pick_outside_loop by apply landing_marker_outside.
    destruct bl as [[x y]|]; reflexivity.
Qed.

End Pipeline.

(* ================================================================== *)
(** ** Coordinate Extractor into the single renderer *)

Lemma plot_single_trajectory_completes
  (first : float * float) (rest : list (float * float))
  (game_id play_id : option Z) :
  snd (plot_single_trajectory (first :: rest) game_id play_id) = Ok tt.
Proof.
  assert (Hne : first :: rest <> []) by discriminate.
  destruct (exists_last Hne) as (front & final & Hlast).
  unfold plot_single_trajectory. cbv zeta.
  rewrite !snd_bind_emit.
  assert (Hx : getitem (map fst (first :: rest)) (-1) = Ok (fst final))
    by (rewrite Hlast, map_app; apply getitem_end).
  assert (Hy : getitem (map snd (first :: rest)) (-1) = Ok (snd final))
    by (rewrite Hlast, map_app; apply getitem_end).
  cbn [map] in *. rewrite !getitem_0.
  cbn [bind plt_Monad lift emit fst snd app]. rewrite Hx, Hy. reflexivity.
Qed.

(** X17.  The pipeline of the docstring, extract one player's points and
    plot them: on a frame with the x and y columns it fails with
    [IndexError] exactly when the frame has no rows; otherwise it
    completes, with "Start" at the first row's position and "End" at the
    last row's. *)
Theorem extract_then_plot (play_group : DataFrame) (game_id play_id : option Z) :
  has_column play_group X = true ->
  has_column play_group Y = true ->
  exists points,
    extract_points play_group = Ok points /\
    (rows play_group = [] ->
     snd (plot_single_trajectory points game_id play_id) = Raise IndexError) /\
    (forall first rest, rows play_group = first :: rest ->
       snd (plot_single_trajectory points game_id play_id) = Ok tt /\
       pick point_marker (fst (plot_single_trajectory points game_id play_id))
       = [ ("go", "Start", (xPos first, yPos first));
           ("ro", "End", (xPos (last rest first), yPos (last rest first))) ]).
Proof.
  intros HX HY. exists (trajectory (rows play_group)).
  unfold extract_points, col. rewrite HX, HY.
  cbn [bind ret result_Monad]. rewrite combine_map.
  split; [reflexivity|]. split.
  - intros ->. reflexivity.
  - intros first rest ->. unfold trajectory. cbn [map].
    split; [apply plot_single_trajectory_completes|].
    destruct (plot_single_trajectory_picks
                (xPos first, yPos first)
                (map (fun r => (xPos r, yPos r)) rest) game_id play_id)
      as (before & markers & after & -> & Hb & _ & Hm & _ & Ha & _).
    rewrite !pick_app, Hb, Hm, Ha. cbn [app].
    now rewrite (last_map (fun r => (xPos r, yPos r)) rest first).
Qed.

(* ================================================================== *)
(** ** The theorems above at the example tables *)

(** Discharges the properties of the reference sorter and the schema of an
    example table. *)
Ltac at_example :=
  first [ exact insertion_sort_perm
        | exact insertion_sort_sorted
        | solve [repeat constructor]
        | discriminate
        | reflexivity ].

Lemma trajectories_are_extract_points_witness :
  (tracking_table example_df /\
   (selection example_df 100 7 <> [] \/ landing_columns example_df = false)) /\
  exists points_array labels ball_land,
    get_player_points_array insertion_sort example_df 100 7
      = Ok (points_array, labels, ball_land) /\
    Forall2
      (fun p points =>
         extract_points
           (player_group example_df p
              (insertion_sort frameId (selection example_df 100 7)))
         = Ok points)
      (unique_sorted (map nflId (selection example_df 100 7)))
      points_array.
Proof.
  split; [split; [repeat constructor | left; discriminate]|].
  apply (trajectories_are_extract_points insertion_sort); try at_example.
  left; discriminate.
Defined.

Lemma missing_identifier_column_witness :
  (has_column no_play_df GAME_ID = false ->
   get_player_points_array insertion_sort no_play_df 100 7
   = Raise (KeyError GAME_ID)) /\
  (has_column no_play_df GAME_ID = true -> has_column no_play_df PLAY_ID = false ->
   get_player_points_array insertion_sort no_play_df 100 7
   = Raise (KeyError PLAY_ID)) /\
  (has_column no_play_df GAME_ID = true -> has_column no_play_df PLAY_ID = true ->
   has_column no_play_df FRAME_ID = false ->
   get_player_points_array insertion_sort no_play_df 100 7
   = Raise (KeyError FRAME_ID)) /\
  (has_column no_play_df GAME_ID = true -> has_column no_play_df PLAY_ID = true ->
   has_column no_play_df FRAME_ID = true -> has_column no_play_df NFL_ID = false ->
   landing_columns no_play_df = false \/ selection no_play_df 100 7 <> [] ->
   get_player_points_array insertion_sort no_play_df 100 7
   = Raise (KeyError NFL_ID)) /\
  (has_column no_play_df GAME_ID = true -> has_column no_play_df PLAY_ID = true ->
   has_column no_play_df FRAME_ID = true ->
   landing_columns no_play_df = true -> selection no_play_df 100 7 = [] ->
   get_player_points_array insertion_sort no_play_df 100 7 = Raise IndexError).
Proof.
  apply (missing_identifier_column insertion_sort insertion_sort_perm
           no_play_df 100 7).
Defined.

Lemma missing_coordinate_column_witness :
  (Forall (fun c => has_column no_x_df c = true)
          [GAME_ID; PLAY_ID; FRAME_ID; NFL_ID] /\
   (has_column no_x_df X = false \/ has_column no_x_df Y = false)) /\
  (selection no_x_df 100 7 <> [] ->
   get_player_points_array insertion_sort no_x_df 100 7
   = Raise (KeyError (if has_column no_x_df X then Y else X))) /\
  (selection no_x_df 100 7 = [] -> landing_columns no_x_df = false ->
   get_player_points_array insertion_sort no_x_df 100 7 = Ok ([], [], None)).
Proof.
  split; [split; [repeat constructor | left; reflexivity]|].
  apply (missing_coordinate_column insertion_sort insertion_sort_perm
           no_x_df 100 7); [repeat constructor | left; reflexivity].
Defined.

Lemma trajectories_partition_selection_witness :
  (tracking_table example_df /\
   (selection example_df 100 7 <> [] \/ landing_columns example_df = false)) /\
  exists points_array labels ball_land,
    get_player_points_array insertion_sort example_df 100 7
      = Ok (points_array, labels, ball_land) /\
    Permutation (List.concat points_array)
                (map (fun r => (xPos r, yPos r)) (selection example_df 100 7)) /\
    length (List.concat points_array) = length (selection example_df 100 7).
Proof.
  split; [split; [repeat constructor | left; discriminate]|].
  apply (trajectories_partition_selection insertion_sort); try at_example.
  left; discriminate.
Defined.

Lemma synthesized_labels_distinct_witness :
  (tracking_table example_df /\ has_column example_df PLAYER_NAME = false /\
   (selection example_df 100 7 <> [] \/ landing_columns example_df = false)) /\
  exists points_array labels ball_land,
    get_player_points_array insertion_sort example_df 100 7
      = Ok (points_array, labels, ball_land) /\
    labels = map (fun p => Str ("Player " ++ str p)%string)
                 (unique_sorted (map nflId (selection example_df 100 7))) /\
    NoDup labels.
Proof.
  split; [split; [repeat constructor | split; [reflexivity | left; discriminate]]|].
  apply (synthesized_labels_distinct insertion_sort); try at_example.
  left; discriminate.
Defined.

Lemma example_df_frames_distinct (p : Z) :
  NoDup (map frameId (player_rows p (selection example_df 100 7))).
Proof.
  destruct (Z.eq_dec p 1) as [->|H1]; [|destruct (Z.eq_dec p 2) as [->|H2]].
  - cbv [player_rows selection example_df rows filter gameId playId nflId
         tracking_row andb Z.eqb Pos.eqb map frameId].
    repeat (constructor; [cbn [In]; intuition discriminate|]); constructor.
  - cbv [player_rows selection example_df rows filter gameId playId nflId
         tracking_row andb Z.eqb Pos.eqb map frameId].
    repeat (constructor; [cbn [In]; intuition discriminate|]); constructor.
  - assert (E1 : (1 =? p) = false) by (apply Z.eqb_neq; lia).
    assert (E2 : (2 =? p) = false) by (apply Z.eqb_neq; lia).
    assert (Hs : selection example_df 100 7
                 = [ tracking_row 100 7 2 2 NA 48 26 60 10;
                     tracking_row 100 7 3 1 NA 14 22 60 10;
                     tracking_row 100 7 1 1 NA 10 20 60 10;
                     tracking_row 100 7 2 1 NA 12 21 60 10;
                     tracking_row 100 7 1 2 NA 50 25 60 10 ]) by reflexivity.
    rewrite Hs. unfold player_rows. cbn [filter].
    cbn [nflId tracking_row]. rewrite E1, E2. constructor.
Defined.

Lemma row_order_irrelevant_witness :
  (tracking_table example_df /\
   columns reversed_df = columns example_df /\
   Permutation (rows example_df) (rows reversed_df) /\
   (forall p, NoDup (map frameId (player_rows p (selection example_df 100 7)))) /\
   (selection example_df 100 7 <> [] \/ landing_columns example_df = false)) /\
  exists points_array labels ball_land1 ball_land2,
    get_player_points_array insertion_sort example_df 100 7
      = Ok (points_array, labels, ball_land1) /\
    get_player_points_array insertion_sort reversed_df 100 7
      = Ok (points_array, labels, ball_land2).
Proof.
  split.
  - split; [repeat constructor|]. split; [reflexivity|].
    split; [apply Permutation_rev|].
    split; [exact example_df_frames_distinct | left; discriminate].
  - apply (row_order_irrelevant insertion_sort insertion_sort);
      try at_example.
    + apply Permutation_rev.
    + exact example_df_frames_distinct.
    + left; discriminate.
Defined.

Lemma example_df_landing_constant (r1 r2 : Row) :
  In r1 (selection example_df 100 7) ->
  In r2 (selection example_df 100 7) ->
  ballLandX r1 = ballLandX r2 /\ ballLandY r1 = ballLandY r2.
Proof.
  cbn. intros H1 H2.
  repeat (destruct H1 as [<-|H1]);
    try contradiction;
    repeat (destruct H2 as [<-|H2]); try contradiction; split; reflexivity.
Defined.

Lemma landing_point_of_any_row_witness :
  (tracking_table example_df /\ landing_columns example_df = true /\
   (forall r1 r2,
      In r1 (selection example_df 100 7) ->
      In r2 (selection example_df 100 7) ->
      ballLandX r1 = ballLandX r2 /\ ballLandY r1 = ballLandY r2) /\
   In (tracking_row 100 7 3 1 NA 14 22 60 10) (selection example_df 100 7)) /\
  exists points_array labels,
    get_player_points_array insertion_sort example_df 100 7
      = Ok (points_array, labels,
            if notna (ballLandX (tracking_row 100 7 3 1 NA 14 22 60 10))
               && notna (ballLandY (tracking_row 100 7 3 1 NA 14 22 60 10))
            then Some (ballLandX (tracking_row 100 7 3 1 NA 14 22 60 10),
                       ballLandY (tracking_row 100 7 3 1 NA 14 22 60 10))
            else None).
Proof.
  split.
  - split; [repeat constructor|]. split; [reflexivity|].
    split; [exact example_df_landing_constant | cbn; auto].
  - apply (landing_point_of_any_row insertion_sort); try at_example.
    exact example_df_landing_constant.
Defined.

Lemma aggregate_then_plot_witness :
  (tracking_table named_df /\
   (selection named_df 100 7 <> [] \/ landing_columns named_df = false)) /\
  exists points_array labels ball_land,
    get_player_points_array insertion_sort named_df 100 7
      = Ok (points_array, labels, ball_land) /\
    length labels = length points_array /\
    snd (plot_multiple_points points_array ball_land
           (Some 100) (Some 7) (Some labels)) = Ok tt /\
    pick line_label
      (fst (plot_multiple_points points_array ball_land
              (Some 100) (Some 7) (Some labels))) = labels /\
    pick line_coords
      (fst (plot_multiple_points points_array ball_land
              (Some 100) (Some 7) (Some labels)))
      = map (fun points => (map fst points, map snd points)) points_array /\
    pick landing_marker
      (fst (plot_multiple_points points_array ball_land
              (Some 100) (Some 7) (Some labels)))
      = match ball_land with Some landing => [landing] | None => [] end.
Proof.
  split; [split; [repeat constructor | left; discriminate]|].
  apply (aggregate_then_plot insertion_sort); try at_example.
  left; discriminate.
Defined.

Lemma offensive_frame_rows_witness :
  has_column role_df PLAYER_ROLE = true /\
  exists off,
    offensive_frame role_df = Ok off /\
    columns off = columns role_df /\
    rows off = filter (fun r => offensive (playerRole r)) (rows role_df) /\
    (forall r, In r (rows off) <->
       In r (rows role_df) /\
       (playerRole r = Str "Other Route Runner" \/ playerRole r = Str "Passer" \/
        playerRole r = Str "Targeted Receiver")) /\
    offensive_frame off = Ok off.
Proof.
  split; [reflexivity|].
  apply (offensive_frame_rows role_df). reflexivity.
Defined.

Lemma extract_then_plot_witness :
  (has_column example_df X = true /\ has_column example_df Y = true) /\
  exists points,
    extract_points example_df = Ok points /\
    (rows example_df = [] ->
     snd (plot_single_trajectory points (Some 100) (Some 7)) = Raise IndexError) /\
    (forall first rest, rows example_df = first :: rest ->
       snd (plot_single_trajectory points (Some 100) (Some 7)) = Ok tt /\
       pick point_marker (fst (plot_single_trajectory points (Some 100) (Some 7)))
       = [ ("go", "Start", (xPos first, yPos first));
           ("ro", "End", (xPos (last rest first), yPos (last rest first))) ]).
Proof.
  split; [split; reflexivity|].
  apply (extract_then_plot example_df (Some 100) (Some 7)); reflexivity.
Defined.

Example role_df_offensive :
  option_map (fun off => map nflId (rows off))
    (match offensive_frame role_df with Ok off => Some off | Raise _ => None end)
  = Some [1; 4].
Proof. reflexivity. Qed.
